(** * xprezzo-urlencoded-parser: the decoding pipeline of [lib/urlencoded.js]

    A shallow embedding of the middleware built by [UrlencodedParser]:
    option validation, the two query decoders, the parameter counter,
    charset resolution, the eligibility checks of [checkParse] and the
    request handler returned by [createReader].

    JavaScript values are a small inductive type; numbers are NaN, the
    two infinities or a rational; strings are [string]s.  Calls that
    leave the module ([debug], [deprecate], [next], [Reader] and the two
    key-value parsers) are recorded in an event trace, and [throw] is
    the [Throw] completion of the monad [M].  What the module requires
    from elsewhere is the class [Externals]; the cache of loaded parser
    modules ([parser], [parsers]) is modelled on its own in [Parsers],
    the decoders taking their parse functions from [Externals]. *)

From Stdlib Require Import ZArith QArith String Ascii List Bool Lia.
Import ListNotations.

Local Open Scope Z_scope.
Local Open Scope string_scope.

Set Implicit Arguments.
Set Warnings "-register-all".

(** ** JavaScript values *)

Module JS.

(** A number: the finite ones are rationals, which cover every double. *)
Inductive number : Type :=
| NaN
| PosInf
| NegInf
| Fin (q : Q).

Definition of_Z (z : Z) : number := Fin (inject_Z z).

(** An object is known by its own properties; a function by its name. *)
Inductive value : Type :=
| VUndefined
| VNull
| VBool (b : bool)
| VNumber (n : number)
| VString (s : string)
| VFunction (name : string)
| VObject (props : list (string * value)).

(** The literal [{}]. *)
Definition empty_object : value := VObject [].

Definition is_zero (q : Q) : bool := Z.eqb (Qnum q) 0.

(** ToBoolean. *)
Definition truthy (v : value) : bool :=
  match v with
  | VUndefined | VNull => false
  | VBool b => b
  | VNumber NaN => false
  | VNumber (Fin q) => negb (is_zero q)
  | VNumber _ => true
  | VString s => negb (String.eqb s "")
  | VFunction _ | VObject _ => true
  end.

(** [a || b]. *)
Definition or (a b : value) : value := if truthy a then a else b.

(** [typeof v === 'function'] and [typeof v === 'number']. *)
Definition is_function (v : value) : bool :=
  match v with VFunction _ => true | _ => false end.

Definition is_number (v : value) : bool :=
  match v with VNumber _ => true | _ => false end.


(** [v === undefined] and [v === false]. *)
Definition is_undefined (v : value) : bool :=
  match v with VUndefined => true | _ => false end.

Definition is_false (v : value) : bool :=
  match v with VBool false => true | _ => false end.

Section Conversions.

(** StringToNumber of the language, left to the runtime. *)
Variable StringToNumber : string -> number.

(** ToNumber.  For a primitive value this is the conversion of the
    language.  An object or a function converts through its own
    [valueOf] and [toString], which the value model does not hold: it
    is given the conversion of an ordinary object, NaN, and what is
    proved of a conversion is stated for primitive values
    ([is_primitive]). *)
Definition ToNumber (v : value) : number :=
  match v with
  | VUndefined => NaN
  | VNull => of_Z 0
  | VBool b => of_Z (if b then 1 else 0)
  | VNumber n => n
  | VString s => StringToNumber s
  | VFunction _ | VObject _ => NaN
  end.

(** The globals [isNaN] and [isFinite]. *)
Definition isNaN (v : value) : bool :=
  match ToNumber v with NaN => true | _ => false end.

Definition isFinite (v : value) : bool :=
  match ToNumber v with Fin _ => true | _ => false end.

(** [v < 1]: a comparison with NaN is false. *)
Definition lt_one (v : value) : bool :=
  match ToNumber v with
  | NaN | PosInf => false
  | NegInf => true
  | Fin q => negb (Qle_bool 1 q)
  end.

(** Truncation towards zero, then the signed 32-bit wrap-around. *)
Definition truncate (q : Q) : Z := Z.quot (Qnum q) (Zpos (Qden q)).

Definition wrap32 (z : Z) : Z :=
  let m := z mod 2 ^ 32 in
  if Z.ltb m (2 ^ 31) then m else m - 2 ^ 32.

Definition ToInt32 (n : number) : Z :=
  match n with
  | Fin q => wrap32 (truncate q)
  | _ => 0
  end.

(** [v | 0]. *)
Definition bitor_zero (v : value) : value :=
  VNumber (of_Z (ToInt32 (ToNumber v))).

End Conversions.

(** [count === v] for an integer [count]: only a number is strictly
    equal to a number. *)
Definition strict_equals_int (count : Z) (v : value) : bool :=
  match v with
  | VNumber (Fin q) => Qeq_bool (inject_Z count) q
  | _ => false
  end.

End JS.

Import JS.

(** ** Strings

    A JavaScript string is held as a [string] of 8-bit characters.
    Header values are such strings; of a body the code looks only at
    whether it is empty and at where ['&'] occurs. *)

(** The field separator ['&']. *)
Definition ampersand : ascii := "&"%char.

Fixpoint drop (n : nat) (s : string) : string :=
  match n, s with
  | O, _ => s
  | S n', EmptyString => EmptyString
  | S n', String _ s' => drop n' s'
  end.

(** Index of the first [c] in [s], counted from [i]; [-1] when there is
    none. *)
Fixpoint find_from (c : ascii) (s : string) (i : Z) : Z :=
  match s with
  | EmptyString => -1
  | String a s' => if Ascii.eqb a c then i else find_from c s' (i + 1)
  end.

(** [s.indexOf(c, position)] for a one-character search string: the
    position is clamped to [0 .. s.length] and the search runs from
    there. *)
Definition indexOf (s : string) (c : ascii) (position : Z) : Z :=
  let start := Z.min (Z.max position 0) (Z.of_nat (String.length s)) in
  find_from c (drop (Z.to_nat start) s) start.

(** Number of occurrences of [c] in [s]. *)
Fixpoint occurrences (c : ascii) (s : string) : Z :=
  match s with
  | EmptyString => 0
  | String a s' => (if Ascii.eqb a c then 1 else 0) + occurrences c s'
  end.

(** ** The parameter counter *)

(** The [while] loop of [parameterCount], one iteration per unit of
    [fuel].  The result is [Some None] for [undefined], [Some (Some n)]
    for the count [n], and [None] when the fuel is used up. *)
Fixpoint parameterCount_loop (fuel : nat) (body : string) (limit : value)
    (count index : Z) : option (option Z) :=
  match fuel with
  | O => None
  | S fuel' =>
      let index := indexOf body ampersand index in
      if Z.eqb index (-1) then Some (Some count)
      else
        let count := count + 1 in
        let index := index + 1 in
        if strict_equals_int count limit then Some None
        else parameterCount_loop fuel' body limit count index
  end.

(** [parameterCount(body, limit)]: [None] is [undefined].  Every
    iteration moves [index] past one more character, so
    [body.length + 1] iterations always suffice
    (lemma [parameterCount_loop_total]). *)
Definition parameterCount (body : string) (limit : value) : option Z :=
  match parameterCount_loop (S (String.length body)) body limit 0 0 with
  | Some r => r
  | None => None
  end.

(** The same scan written by recursion on the text that is left. *)
Fixpoint scan (rest : string) (limit : value) (count : Z) : option Z :=
  match rest with
  | EmptyString => Some count
  | String a rest' =>
      if Ascii.eqb a ampersand then
        if strict_equals_int (count + 1) limit then None
        else scan rest' limit (count + 1)
      else scan rest' limit count
  end.

(** ** Errors, events and the monad *)

(** What the code throws or hands to [next]: a [TypeError], or the error
    object built by [createError(status, message, props)]. *)
Inductive exn : Type :=
| TypeError (message : string)
| HttpError (status : Z) (message : string) (props : list (string * value)).

Definition createError := HttpError.

Definition exn_status (e : exn) : option Z :=
  match e with
  | TypeError _ => None
  | HttpError st _ _ => Some st
  end.

Definition exn_message (e : exn) : string :=
  match e with
  | TypeError m => m
  | HttpError _ m _ => m
  end.

Fixpoint lookup {A : Type} (key : string) (l : list (string * A)) : option A :=
  match l with
  | [] => None
  | (k, v) :: l' => if String.eqb k key then Some v else lookup key l'
  end.

(** The [type] property of an error, its machine-readable kind. *)
Definition exn_kind (e : exn) : option value :=
  match e with
  | TypeError _ => None
  | HttpError _ _ props => lookup "type" props
  end.

(** The options record handed to [qs.parse]. *)
Record qs_options : Type := {
  allowPrototypes : bool;
  arrayLimit : Z;
  depth : number;
  qs_parameterLimit : value
}.

(** The options record handed to [Reader], without the logger. *)
Record reader_options : Type := {
  encoding : string;
  inflate : bool;
  limit : value;
  verify : value
}.

(** Calls that leave the module, in the order they happen. *)
Inductive event : Type :=
| Debug (format : string) (args : list value)
| Deprecate (message : string)
| Next (err : option exn)
| ReaderCalled (opts : reader_options)
| QsParse (body : string) (opts : qs_options)
| QuerystringParse (body : string) (maxKeys : value).

Inductive completion (A : Type) : Type :=
| Normal (a : A)
| Throw (e : exn).

Arguments Normal {A} a.
Arguments Throw {A} e.

(** A computation: how it completes, and the events it produced. *)
Definition M (A : Type) : Type := (completion A * list event)%type.

Definition ret {A : Type} (a : A) : M A := (Normal a, []).

Definition throw {A : Type} (e : exn) : M A := (Throw e, []).

Definition emit (ev : event) : M unit := (Normal tt, [ev]).

Definition bind {A B : Type} (m : M A) (k : A -> M B) : M B :=
  match m with
  | (Normal a, t) => let '(c, t') := k a in (c, (t ++ t')%list)
  | (Throw e, t) => (Throw e, t)
  end.

Notation "x <- m ;; k" := (bind m (fun x => k))
  (at level 61, m at next level, right associativity).
Notation "m ;; k" := (bind m (fun _ => k))
  (at level 61, right associativity).

(** [try { m } catch (e) { handler e }] *)
Definition try_catch {A : Type} (m : M A) (handler : exn -> M A) : M A :=
  match m with
  | (Normal a, t) => (Normal a, t)
  | (Throw e, t) => let '(c, t') := handler e in (c, (t ++ t')%list)
  end.

Definition debug (format : string) (args : list value) : M unit :=
  emit (Debug format args).

Definition deprecate (message : string) : M unit := emit (Deprecate message).

Definition next (err : option exn) : M unit := emit (Next err).

Definition completion_of {A : Type} (m : M A) : completion A := fst m.

Definition trace_of {A : Type} (m : M A) : list event := snd m.

(** ** Requests and options *)

Module Request.

(** The parts of the request object the middleware touches: the
    [_body] flag, the [body] field, the headers, and the bytes still to
    be read from the stream. *)
Record t : Type := {
  _body : value;
  body : value;
  headers : list (string * string);
  payload : string
}.

Definition set_body (req : t) (v : value) : t :=
  {| _body := _body req; body := v;
     headers := headers req; payload := payload req |}.

Definition set__body (req : t) (v : value) : t :=
  {| _body := v; body := body req;
     headers := headers req; payload := payload req |}.

(** [req.headers[name]]. *)
Definition header (req : t) (name : string) : value :=
  match lookup name (headers req) with
  | Some h => VString h
  | None => VUndefined
  end.

End Request.

Module Options.

(** The recognised construction options; an absent one is [undefined]. *)
Record t : Type := {
  limit : value;
  inflate : value;
  type : value;
  verify : value;
  extended : value;
  parameterLimit : value
}.

(** The object [{}]. *)
Definition empty : t :=
  {| limit := VUndefined; inflate := VUndefined; type := VUndefined;
     verify := VUndefined; extended := VUndefined;
     parameterLimit := VUndefined |}.

End Options.

(** ** External collaborators *)

(** Everything the module requires or is handed by its caller. *)
Class Externals : Type := {
  (** the language runtime *)
  StringToNumber : string -> number;
  toLowerCase : string -> string;
  toUpperCase : string -> string;
  (** [bytes.parse] *)
  bytes_parse : value -> value;
  (** [contentType.parse(req).parameters]; [None] when it throws *)
  contentType_parse : Request.t -> option (list (string * string));
  (** [typeis.hasBody(req)] and [typeis(req, type)] *)
  typeis_hasBody : Request.t -> bool;
  typeis : Request.t -> value -> value;
  (** calling a [type] predicate supplied by the user, taken to
      return: a predicate that throws is outside the model *)
  apply_predicate : string -> Request.t -> value;
  (** [qs.parse] and [querystring.parse] *)
  qs_parse : string -> qs_options -> value;
  querystring_parse : string -> value -> value;
  (** body acquisition inside [Reader]: the decoded body, or the
      reader's own error *)
  acquire : Request.t -> reader_options -> exn + string
}.

Section Pipeline.

Context {ext : Externals}.

(** ** The query decoders *)

(** [options.parameterLimit !== undefined ? options.parameterLimit : 1000] *)
Definition configuredLimit (options : Options.t) : value :=
  if negb (is_undefined (Options.parameterLimit options))
  then Options.parameterLimit options
  else VNumber (of_Z 1000).

(** The check both decoders make before they are built. *)
Definition invalidLimit (parameterLimit : value) : bool :=
  isNaN StringToNumber parameterLimit || lt_one StringToNumber parameterLimit.

(** [if (isFinite(parameterLimit)) parameterLimit = parameterLimit | 0] *)
Definition effectiveLimit (parameterLimit : value) : value :=
  if isFinite StringToNumber parameterLimit
  then bitor_zero StringToNumber parameterLimit
  else parameterLimit.

Definition tooManyParameters : exn :=
  createError 413 "too many parameters"
    [("type", VString "parameters.too.many")].

(** The closure [queryparse] returned by [extendedparser], over the
    [parameterLimit] it captures. *)
Definition extended_queryparse (parameterLimit : value) (body : string)
    : M value :=
  match parameterCount body parameterLimit with
  | None =>
      debug "too many parameters" [] ;;
      throw tooManyParameters
  | Some paramCount =>
      let arrayLimit := Z.max 100 paramCount in
      debug "parse extended urlencoding" [] ;;
      let opts := {| allowPrototypes := true;
                     arrayLimit := arrayLimit;
                     depth := PosInf;
                     qs_parameterLimit := parameterLimit |} in
      emit (QsParse body opts) ;;
      ret (qs_parse body opts)
  end.

(** The closure [queryparse] returned by [simpleparser]. *)
Definition simple_queryparse (parameterLimit : value) (body : string)
    : M value :=
  match parameterCount body parameterLimit with
  | None =>
      debug "too many parameters" [] ;;
      throw tooManyParameters
  | Some paramCount =>
      debug "parse urlencoding" [] ;;
      emit (QuerystringParse body parameterLimit) ;;
      ret (querystring_parse body parameterLimit)
  end.

Definition extendedparser (options : Options.t) : M (string -> M value) :=
  let parameterLimit := configuredLimit options in
  if invalidLimit parameterLimit
  then throw (TypeError "option parameterLimit must be a positive number")
  else ret (extended_queryparse (effectiveLimit parameterLimit)).

Definition simpleparser (options : Options.t) : M (string -> M value) :=
  let parameterLimit := configuredLimit options in
  if invalidLimit parameterLimit
  then throw (TypeError "option parameterLimit must be a positive number")
  else ret (simple_queryparse (effectiveLimit parameterLimit)).

(** [opts.extended !== false ? extendedparser(opts) : simpleparser(opts)] *)
Definition selectedParser (opts : Options.t) : M (string -> M value) :=
  if negb (is_false (Options.extended opts))
  then extendedparser opts
  else simpleparser opts.

(** ** Construction *)

Definition typeChecker (type : value) : Request.t -> bool :=
  fun req => truthy (typeis req type).

(** [typeof parsedType !== 'function' ? typeChecker(parsedType)
    : parsedType], the result read for its truth value. *)
Definition typeCheckerOf (parsedType : value) : Request.t -> bool :=
  match parsedType with
  | VFunction f => fun req => truthy (apply_predicate f req)
  | _ => typeChecker parsedType
  end.

(** The [opts] object once the constructor is done with it: what
    [prop.get(this)] returns. *)
Record instance : Type := {
  parsedLimit : value;
  parsedInflate : bool;
  parsedType : value;
  parsedVerify : value;
  queryparse : string -> M value;
  shouldParse : Request.t -> bool
}.

(** [options || {}] *)
Definition given (options : option Options.t) : Options.t :=
  match options with
  | Some o => o
  | None => Options.empty
  end.

(** What construction sends to [deprecate]. *)
Definition notice (opts : Options.t) : list event :=
  if is_undefined (Options.extended opts)
  then [Deprecate "undefined extended: provide extended option"]
  else [].

Definition UrlencodedParser (options : option Options.t) : M instance :=
  let opts := given options in
  (if is_undefined (Options.extended opts)
   then deprecate "undefined extended: provide extended option"
   else ret tt) ;;
  let parsedLimit :=
    if negb (is_number (Options.limit opts))
    then bytes_parse (JS.or (Options.limit opts) (VString "100kb"))
    else Options.limit opts in
  let parsedInflate := negb (is_false (Options.inflate opts)) in
  let parsedType :=
    JS.or (Options.type opts) (VString "application/x-www-form-urlencoded") in
  let parsedVerify := JS.or (Options.verify opts) (VBool false) in
  (if negb (is_false parsedVerify) && negb (is_function parsedVerify)
   then throw (TypeError "option verify must be function")
   else ret tt) ;;
  queryparse <- selectedParser opts ;;
  let shouldParse := typeCheckerOf parsedType in
  ret {| parsedLimit := parsedLimit;
         parsedInflate := parsedInflate;
         parsedType := parsedType;
         parsedVerify := parsedVerify;
         queryparse := queryparse;
         shouldParse := shouldParse |}.

(** The [options] argument of the constructor, by what becomes of the
    properties the constructor writes on it.  [Missing] is [undefined],
    [null] or another falsy value, for which [options || {}] is a fresh
    object.  [Writable o] is an object that takes the properties.
    [Sealed o] is one that refuses them: a frozen or non-extensible
    object, or a truthy primitive (for which [o] is [Options.empty]).
    In each case [o] holds what reading the options gives. *)
Inductive argument : Type :=
| Missing
| Writable (o : Options.t)
| Sealed (o : Options.t).



(** [new UrlencodedParser(options)] for any argument.  The file is in
    strict mode: on an object that refuses it, the assignment to
    [opts.parsedLimit], which comes after the notice and before any
    validation, is a [TypeError] of the runtime. *)
Definition construct (a : argument) : M instance :=
  match a with
  | Missing => UrlencodedParser None
  | Writable o => UrlencodedParser (Some o)
  | Sealed o =>
      (if is_undefined (Options.extended o)
       then deprecate "undefined extended: provide extended option"
       else ret tt) ;;
      throw (TypeError
               "Cannot add property parsedLimit, object is not extensible")
  end.

(** ** Charset resolution and the eligibility checks *)

(** [s || fallback] for a string or [undefined]. *)
Definition string_or (s : option string) (fallback : string) : string :=
  match s with
  | Some s' => if String.eqb s' "" then fallback else s'
  | None => fallback
  end.

(** The [try] block returns the lowercased charset parameter, the
    [catch] block [undefined]. *)
Definition getCharset (req : Request.t) : option string :=
  match contentType_parse req with
  | Some parameters =>
      Some (toLowerCase (string_or (lookup "charset" parameters) ""))
  | None => None
  end.

(** [getCharset(req) || 'utf-8'] *)
Definition resolvedCharset (req : Request.t) : string :=
  string_or (getCharset req) "utf-8".

Definition double_quote : string := String "034"%char EmptyString.

Definition unsupportedCharset (charset : string) : exn :=
  createError 415
    ("unsupported charset " ++ double_quote ++ toUpperCase charset
       ++ double_quote)
    [("charset", VString charset); ("type", VString "charset.unsupported")].

Definition checkParse (req : Request.t) (self : instance) (charset : string)
    : M bool :=
  if truthy (Request._body req) then
    debug "body already parsed" [] ;;
    next None ;;
    ret false
  else if negb (typeis_hasBody req) then
    debug "skip empty body" [] ;;
    next None ;;
    ret false
  else
    debug "content-type %j" [Request.header req "content-type"] ;;
    if negb (shouldParse self req) then
      debug "skip parsing" [] ;;
      next None ;;
      ret false
    else if negb (String.eqb charset "utf-8") then
      debug "invalid charset" [] ;;
      next (Some (unsupportedCharset charset)) ;;
      ret false
    else ret true.

(** ** The request handler *)

(** Modelled from the spec: the streaming reader [Reader] of
    xprezzo-raw-body, which is not part of this repository's sources.
    Section 4.5: acquisition either fails with the reader's own error,
    which goes to [next] and leaves the request alone, or yields the
    body; the body is handed to the [parse] callback, whose failure goes
    to [next] as well; on success the mapping is stored on the request,
    which from then on carries a decoded body, and [next] is called with
    no error. *)
Definition Reader (req : Request.t) (parse : string -> M value)
    (options : reader_options) : M Request.t :=
  emit (ReaderCalled options) ;;
  match acquire req options with
  | inl err =>
      next (Some err) ;;
      ret req
  | inr body =>
      try_catch
        (mapping <- parse body ;;
         let req := Request.set__body (Request.set_body req mapping)
                      (VBool true) in
         next None ;;
         ret req)
        (fun err =>
           next (Some err) ;;
           ret req)
  end.

(** The callback the handler gives to [Reader]. *)
Definition parseBody (self : instance) (body : string) : M value :=
  if negb (Nat.eqb (String.length body) 0)
  then queryparse self body
  else ret empty_object.

(** [req.body = req.body || {}] *)
Definition placeholder (req : Request.t) : Request.t :=
  Request.set_body req (JS.or (Request.body req) empty_object).

(** The function returned by [createReader]: it yields the request as
    the handler leaves it. *)
Definition createReader (self : instance) (req : Request.t) : M Request.t :=
  let charset := resolvedCharset req in
  let req := placeholder req in
  ok <- checkParse req self charset ;;
  if negb ok then ret req
  else
    Reader req (parseBody self)
      {| encoding := charset;
         inflate := parsedInflate self;
         limit := parsedLimit self;
         verify := parsedVerify self |}.

(** [module.exports]: build the instance, hand back its handler. *)
Definition urlencoded (options : option Options.t)
    : M (Request.t -> M Request.t) :=
  self <- UrlencodedParser options ;;
  ret (createReader self).

End Pipeline.

(** ** The cache of parser modules *)

Module Parsers.

(** The modules [parser] can [require]. *)
Inductive module_object : Type :=
| qs
| querystring.

(** The [parse] property of a module. *)
Inductive parse_function : Type :=
| parse (m : module_object).

(** The object [parsers]: what was stored under each name, [None] for
    [undefined].  It has no prototype, so it holds nothing else. *)
Definition cache : Type := list (string * option module_object).

(** [parsers[name]]: [undefined] for a name that is absent as well. *)
Definition get (parsers : cache) (name : string) : option module_object :=
  match lookup name parsers with
  | Some stored => stored
  | None => None
  end.

(** [parsers[name] = mod] *)
Fixpoint set (parsers : cache) (name : string) (mod_ : option module_object)
    : cache :=
  match parsers with
  | [] => [(name, mod_)]
  | (k, v) :: rest =>
      if String.eqb k name then (k, mod_) :: rest
      else (k, v) :: set rest name mod_
  end.

(** The [switch]: the module loaded for [name], if any, and the
    [require] calls made. *)
Definition load (name : string) : option module_object * list string :=
  if String.eqb name "qs" then (Some qs, ["qs"])
  else if String.eqb name "querystring" then (Some querystring, ["querystring"])
  else (None, []).

(** [parser(name)]: the function returned or the error thrown, the
    [require] calls made, and the cache afterwards.  Reading [parse]
    off [undefined] is the runtime's [TypeError]. *)
Definition parser (name : string) (parsers : cache)
    : completion parse_function * list string * cache :=
  match get parsers name with
  | Some mod_ => (Normal (parse mod_), [], parsers)
  | None =>
      let '(mod_, required) := load name in
      let parsers := set parsers name mod_ in
      match mod_ with
      | Some m => (Normal (parse m), required, parsers)
      | None =>
          (Throw (TypeError
                    "Cannot read properties of undefined (reading 'parse')"),
           required, parsers)
      end
  end.

(** A run of calls, one after the other, from a given cache: all the
    [require] calls made and the cache at the end. *)
Fixpoint calls (names : list string) (parsers : cache)
    : list string * cache :=
  match names with
  | [] => ([], parsers)
  | name :: names' =>
      let '(_, required, parsers') := parser name parsers in
      let '(required', parsers'') := calls names' parsers' in
      ((required ++ required')%list, parsers'')
  end.

(** The module [load] gives for a name is the one of that name. *)
Definition named (name : string) (m : module_object) : Prop :=
  fst (load name) = Some m.

(** What every cache reached by calls satisfies: a module is stored
    under its own name only. *)
Definition consistent (parsers : cache) : Prop :=
  forall name m, get parsers name = Some m -> named name m.

End Parsers.

(** ** Reading a trace *)

(** Is the event a call of [next]? *)
Definition is_next (ev : event) : bool :=
  match ev with
  | Next _ => true
  | _ => false
  end.

(** How many times [next] was called. *)
Definition next_calls (t : list event) : nat := List.length (filter is_next t).

(** ** A concrete environment

    Simple stand-ins for the collaborators, for running the pipeline on
    concrete requests. *)

Module Sample.

Definition lower_char (a : ascii) : ascii :=
  let n := nat_of_ascii a in
  if Nat.leb 65 n && Nat.leb n 90 then ascii_of_nat (n + 32) else a.

Definition upper_char (a : ascii) : ascii :=
  let n := nat_of_ascii a in
  if Nat.leb 97 n && Nat.leb n 122 then ascii_of_nat (n - 32) else a.

Fixpoint map_string (f : ascii -> ascii) (s : string) : string :=
  match s with
  | EmptyString => EmptyString
  | String a s' => String (f a) (map_string f s')
  end.

(** Decimal digits only; the empty string converts to zero. *)
Fixpoint digits (s : string) (acc : Z) : option Z :=
  match s with
  | EmptyString => Some acc
  | String a s' =>
      let n := nat_of_ascii a in
      if Nat.leb 48 n && Nat.leb n 57
      then digits s' (10 * acc + Z.of_nat (n - 48))
      else None
  end.

Definition string_to_number (s : string) : number :=
  match digits s 0 with
  | Some z => of_Z z
  | None => NaN
  end.

(** [100kb] or a number of bytes; anything else is [null]. *)
Definition parse_bytes (v : value) : value :=
  match v with
  | VNumber n => VNumber n
  | VString s => if String.eqb s "100kb" then VNumber (of_Z 102400) else VNull
  | _ => VNull
  end.

(** Fails without a [content-type] header; otherwise the only parameter
    looked for is [charset]. *)
Definition content_type_parameters (req : Request.t)
    : option (list (string * string)) :=
  match lookup "content-type" (Request.headers req) with
  | None => None
  | Some h =>
      match index 0 "charset=" h with
      | Some i =>
          Some [("charset",
                 substring (i + 8) (String.length h - (i + 8)) h)]
      | None => Some []
      end
  end.

Definition has_header (req : Request.t) (name : string) : bool :=
  match lookup name (Request.headers req) with
  | Some _ => true
  | None => false
  end.

Definition has_body (req : Request.t) : bool :=
  has_header req "transfer-encoding" || has_header req "content-length".

(** The media type matches when the header starts with it. *)
Definition media_type_is (req : Request.t) (type : value) : value :=
  match type, lookup "content-type" (Request.headers req) with
  | VString ty, Some h => if prefix ty h then VString ty else VBool false
  | _, _ => VBool false
  end.

(** One property [raw] holding the text; the empty text gives [{}]. *)
Definition parse_raw (body : string) : value :=
  if String.eqb body "" then empty_object
  else VObject [("raw", VString body)].

(** The payload, unless it is longer than a numeric [limit]. *)
Definition read_payload (req : Request.t) (options : reader_options)
    : exn + string :=
  match limit options with
  | VNumber (Fin q) =>
      if Qle_bool (inject_Z (Z.of_nat (String.length (Request.payload req)))) q
      then inr (Request.payload req)
      else inl (createError 413 "request entity too large"
                  [("type", VString "entity.too.large")])
  | _ => inr (Request.payload req)
  end.

Definition externals : Externals := {|
  StringToNumber := string_to_number;
  toLowerCase := map_string lower_char;
  toUpperCase := map_string upper_char;
  bytes_parse := parse_bytes;
  contentType_parse := content_type_parameters;
  typeis_hasBody := has_body;
  typeis := media_type_is;
  apply_predicate := fun _ _ => VBool true;
  qs_parse := fun body _ => parse_raw body;
  querystring_parse := fun body _ => parse_raw body;
  acquire := read_payload
|}.

(** Options that set [extended] and [parameterLimit] only. *)
Definition options_with (extended parameterLimit : value) : Options.t :=
  {| Options.limit := VUndefined;
     Options.inflate := VUndefined;
     Options.type := VUndefined;
     Options.verify := VUndefined;
     Options.extended := extended;
     Options.parameterLimit := parameterLimit |}.

(** Options that set [verify] and [extended: true] only. *)
Definition options_with_verify (verify : value) : Options.t :=
  {| Options.limit := VUndefined;
     Options.inflate := VUndefined;
     Options.type := VUndefined;
     Options.verify := verify;
     Options.extended := VBool true;
     Options.parameterLimit := VUndefined |}.

(** A form post. *)
Definition form_request (content_type body : string) : Request.t :=
  {| Request._body := VUndefined;
     Request.body := VUndefined;
     Request.headers :=
       [("content-type", content_type); ("transfer-encoding", "chunked")];
     Request.payload := body |}.

(** A request an earlier stage has parsed, leaving [body] behind. *)
Definition parsed_request (body : value) : Request.t :=
  {| Request._body := VBool true;
     Request.body := body;
     Request.headers :=
       [("content-type", "application/json"); ("content-length", "1")];
     Request.payload := "" |}.

End Sample.

(** * Properties *)

(** ** The parameter counter *)

Section Counter.

Variable limit : value.

Lemma length_drop (n : nat) (s : string) :
  String.length (drop n s) = (String.length s - n)%nat.
Proof.
  revert s; induction n as [|n IH]; intros s.
  - simpl. lia.
  - destruct s as [|a s]; simpl; [reflexivity | apply IH].
Qed.

Lemma drop_drop (n m : nat) (s : string) :
  drop m (drop n s) = drop (n + m) s.
Proof.
  revert s; induction n as [|n IH]; intros s; simpl.
  - reflexivity.
  - destruct s as [|a s]; [destruct m; reflexivity | apply IH].
Qed.

(** What [find_from] reports determines how [scan] continues. *)
Lemma scan_find_from (s : string) (i count : Z) :
  let j := find_from ampersand s i in
  0 <= i ->
  (j = -1 /\ scan s limit count = Some count) \/
  (i <= j < i + Z.of_nat (String.length s) /\
   scan s limit count =
     if strict_equals_int (count + 1) limit then None
     else scan (drop (S (Z.to_nat (j - i))) s) limit (count + 1)).
Proof.
  revert i; induction s as [|a s IH]; intros i j Hi; subst j.
  - left. split; reflexivity.
  - cbn [find_from scan String.length].
    destruct (Ascii.eqb a ampersand).
    + right. split; [lia|].
      replace (i - i) with 0 by lia. reflexivity.
    + destruct (IH (i + 1)) as [[Hj Hs] | [Hj Hs]]; [lia | |].
      * left. split; assumption.
      * right. split; [lia|].
        rewrite Hs.
        replace (Z.to_nat (find_from ampersand s (i + 1) - i))
          with (S (Z.to_nat (find_from ampersand s (i + 1) - (i + 1))))
          by lia.
        reflexivity.
Qed.

(** The loop started at [index] computes the scan of what lies beyond
    [index], as soon as the fuel exceeds the length of that text. *)
Lemma parameterCount_loop_scan (fuel : nat) (body : string) :
  forall count index,
    0 <= index <= Z.of_nat (String.length body) ->
    (String.length body - Z.to_nat index < fuel)%nat ->
    parameterCount_loop fuel body limit count index =
      Some (scan (drop (Z.to_nat index) body) limit count).
Proof.
  induction fuel as [|fuel IH]; intros count index Hindex Hfuel; [lia|].
  cbn [parameterCount_loop]. unfold indexOf.
  replace (Z.min (Z.max index 0) (Z.of_nat (String.length body)))
    with index by lia.
  pose proof (@scan_find_from (drop (Z.to_nat index) body) index count) as H.
  cbv zeta in H. rewrite length_drop in H.
  destruct H as [[Hj Hs] | [Hj Hs]]; [lia | |].
  - rewrite Hj, Hs. reflexivity.
  - set (j := find_from ampersand (drop (Z.to_nat index) body) index) in *.
    destruct (Z.eqb_spec j (-1)) as [E|_]; [lia|].
    rewrite Hs.
    destruct (strict_equals_int (count + 1) limit); [reflexivity|].
    rewrite IH by lia.
    rewrite drop_drop.
    replace (Z.to_nat index + S (Z.to_nat (j - index)))%nat
      with (Z.to_nat (j + 1)) by lia.
    reflexivity.
Qed.

(** [body.length + 1] iterations are enough: the fuel never runs out. *)
Lemma parameterCount_loop_total (body : string) :
  parameterCount_loop (S (String.length body)) body limit 0 0 <> None.
Proof.
  rewrite parameterCount_loop_scan by (simpl; lia). discriminate.
Qed.

Lemma parameterCount_scan (body : string) :
  parameterCount body limit = scan body limit 0.
Proof.
  unfold parameterCount.
  rewrite parameterCount_loop_scan by (simpl; lia).
  reflexivity.
Qed.

Lemma occurrences_nonneg (c : ascii) (s : string) : 0 <= occurrences c s.
Proof.
  induction s as [|a s IH]; simpl; [lia|].
  destruct (Ascii.eqb a c); lia.
Qed.

(** The scan gives up exactly when one of the running counts is strictly
    equal to the limit. *)
Lemma scan_none (s : string) (count k : Z) :
  count < k <= count + occurrences ampersand s ->
  strict_equals_int k limit = true ->
  scan s limit count = None.
Proof.
  revert count; induction s as [|a s IH]; intros count Hk Heq.
  - simpl in Hk. lia.
  - cbn [scan occurrences] in *.
    destruct (Ascii.eqb a ampersand).
    + destruct (strict_equals_int (count + 1) limit) eqn:E; [reflexivity|].
      apply IH; [|assumption].
      assert (k <> count + 1) by (intros ->; congruence). lia.
    + apply IH; [lia | assumption].
Qed.

Lemma scan_some (s : string) (count : Z) :
  (forall k, count < k <= count + occurrences ampersand s ->
             strict_equals_int k limit = false) ->
  scan s limit count = Some (count + occurrences ampersand s).
Proof.
  revert count; induction s as [|a s IH]; intros count Hk.
  - simpl. f_equal. lia.
  - cbn [scan occurrences] in *.
    pose proof (occurrences_nonneg ampersand s).
    destruct (Ascii.eqb a ampersand).
    + rewrite Hk by lia.
      rewrite IH; [f_equal; lia|].
      intros k Hk'. apply Hk. lia.
    + rewrite IH; [f_equal; lia|].
      intros k Hk'. apply Hk. lia.
Qed.

End Counter.

Lemma strict_equals_int_of_Z (k c : Z) :
  strict_equals_int k (VNumber (of_Z c)) = Z.eqb k c.
Proof.
  unfold strict_equals_int, of_Z, Qeq_bool, inject_Z. simpl.
  rewrite !Z.mul_1_r. reflexivity.
Qed.

(** The counter against an integer limit: [undefined] exactly when the
    limit is one of [1 .. number of separators]. *)
Lemma parameterCount_of_Z (body : string) (c : Z) :
  parameterCount body (VNumber (of_Z c)) =
    if Z.leb 1 c && Z.leb c (occurrences ampersand body)
    then None
    else Some (occurrences ampersand body).
Proof.
  rewrite parameterCount_scan.
  destruct (Z.leb 1 c && Z.leb c (occurrences ampersand body)) eqn:E.
  - apply andb_true_iff in E. destruct E as [E1 E2].
    apply Z.leb_le in E1. apply Z.leb_le in E2.
    apply scan_none with (k := c); [lia|].
    rewrite strict_equals_int_of_Z. apply Z.eqb_refl.
  - rewrite scan_some; [reflexivity|].
    intros k Hk. rewrite strict_equals_int_of_Z.
    apply Z.eqb_neq. intros ->.
    apply andb_false_iff in E. destruct E as [E|E];
      apply Z.leb_gt in E; lia.
Qed.

(** A string holds no more separators than characters. *)
Lemma occurrences_le_length (c : ascii) (s : string) :
  occurrences c s <= Z.of_nat (String.length s).
Proof.
  induction s as [|a s IH]; [reflexivity|].
  cbn [occurrences String.length]. destruct (Ascii.eqb a c); lia.
Qed.

(** ** Numeric coercions *)

Section Coercions.

Context {ext : Externals}.

Lemma truncate_inject_Z (c : Z) : truncate (inject_Z c) = c.
Proof. unfold truncate, inject_Z. simpl. apply Z.quot_1_r. Qed.

Lemma wrap32_small (c : Z) : - 2 ^ 31 <= c < 2 ^ 31 -> wrap32 c = c.
Proof.
  intros Hc. unfold wrap32.
  destruct (Z.ltb_spec (c mod 2 ^ 32) (2 ^ 31)) as [Hlt|Hge];
    pose proof (Z.mod_pos_bound c (2 ^ 32) ltac:(lia)) as Hb;
    pose proof (Z.div_mod c (2 ^ 32) ltac:(lia)) as Hd;
    lia.
Qed.

Lemma invalidLimit_of_Z (c : Z) :
  invalidLimit (VNumber (of_Z c)) = Z.ltb c 1.
Proof.
  unfold invalidLimit, isNaN, lt_one, ToNumber, of_Z, Qle_bool, inject_Z.
  simpl. rewrite Z.mul_1_r.
  destruct (Z.leb_spec 1 c), (Z.ltb_spec c 1); try reflexivity; lia.
Qed.

Lemma effectiveLimit_of_Z (c : Z) :
  effectiveLimit (VNumber (of_Z c)) = VNumber (of_Z (wrap32 c)).
Proof.
  unfold effectiveLimit, isFinite, bitor_zero, ToNumber, ToInt32, of_Z.
  rewrite truncate_inject_Z. reflexivity.
Qed.

(** ** The decoders *)

Lemma configuredLimit_defined (options : Options.t) (v : value) :
  Options.parameterLimit options = v -> is_undefined v = false ->
  configuredLimit options = v.
Proof. intros <- Hv. unfold configuredLimit. rewrite Hv. reflexivity. Qed.

(** Both builders validate, coerce, and return their closure. *)
Lemma extendedparser_of_Z (options : Options.t) (c : Z) :
  Options.parameterLimit options = VNumber (of_Z c) -> 1 <= c ->
  extendedparser options =
    (Normal (extended_queryparse (VNumber (of_Z (wrap32 c)))), []).
Proof.
  intros Hl Hc. unfold extendedparser.
  rewrite (configuredLimit_defined options Hl eq_refl).
  rewrite invalidLimit_of_Z, effectiveLimit_of_Z.
  destruct (Z.ltb_spec c 1); [lia | reflexivity].
Qed.

Lemma simpleparser_of_Z (options : Options.t) (c : Z) :
  Options.parameterLimit options = VNumber (of_Z c) -> 1 <= c ->
  simpleparser options =
    (Normal (simple_queryparse (VNumber (of_Z (wrap32 c)))), []).
Proof.
  intros Hl Hc. unfold simpleparser.
  rewrite (configuredLimit_defined options Hl eq_refl).
  rewrite invalidLimit_of_Z, effectiveLimit_of_Z.
  destruct (Z.ltb_spec c 1); [lia | reflexivity].
Qed.

(** What each closure does on either answer of the counter. *)
Lemma extended_queryparse_over (limit : value) (body : string) :
  parameterCount body limit = None ->
  extended_queryparse limit body =
    (Throw tooManyParameters, [Debug "too many parameters" []]).
Proof. intros H. unfold extended_queryparse. rewrite H. reflexivity. Qed.

Lemma simple_queryparse_over (limit : value) (body : string) :
  parameterCount body limit = None ->
  simple_queryparse limit body =
    (Throw tooManyParameters, [Debug "too many parameters" []]).
Proof. intros H. unfold simple_queryparse. rewrite H. reflexivity. Qed.

Lemma extended_queryparse_under (limit : value) (body : string) (n : Z) :
  parameterCount body limit = Some n ->
  let opts := {| allowPrototypes := true; arrayLimit := Z.max 100 n;
                 depth := PosInf; qs_parameterLimit := limit |} in
  extended_queryparse limit body =
    (Normal (qs_parse body opts),
     [Debug "parse extended urlencoding" []; QsParse body opts]).
Proof. intros H. unfold extended_queryparse. rewrite H. reflexivity. Qed.

Lemma simple_queryparse_under (limit : value) (body : string) (n : Z) :
  parameterCount body limit = Some n ->
  simple_queryparse limit body =
    (Normal (querystring_parse body limit),
     [Debug "parse urlencoding" []; QuerystringParse body limit]).
Proof. intros H. unfold simple_queryparse. rewrite H. reflexivity. Qed.

End Coercions.

(** ** The parameter ceiling *)

Section Ceiling.

Context {ext : Externals}.

Lemma selectedParser_of_Z (options : Options.t) (c : Z) :
  Options.parameterLimit options = VNumber (of_Z c) -> 1 <= c ->
  selectedParser options =
    (Normal ((if negb (is_false (Options.extended options))
              then extended_queryparse
              else simple_queryparse) (VNumber (of_Z (wrap32 c)))), []).
Proof.
  intros Hl Hc. unfold selectedParser.
  destruct (negb (is_false (Options.extended options))).
  - apply extendedparser_of_Z; assumption.
  - apply simpleparser_of_Z; assumption.
Qed.

Lemma effectiveLimit_configured (options : Options.t) (c : Z) :
  Options.parameterLimit options = VNumber (of_Z c) ->
  effectiveLimit (configuredLimit options) = VNumber (of_Z (wrap32 c)).
Proof.
  intros Hl. rewrite (configuredLimit_defined options Hl eq_refl).
  apply effectiveLimit_of_Z.
Qed.

(** Below [2^31] the 32-bit coercion leaves the ceiling alone, and the
    decoder enforces it on bodies of any length. *)
Lemma ceiling_enforced_below_two_pow_31 (options : Options.t) (c : Z) :
  1 <= c < 2 ^ 31 ->
  Options.parameterLimit options = VNumber (of_Z c) ->
  exists decode,
    selectedParser options = (Normal decode, []) /\
    (forall body, occurrences ampersand body = c ->
       decode body =
         (Throw (createError 413 "too many parameters"
                   [("type", VString "parameters.too.many")]),
          [Debug "too many parameters" []])) /\
    (forall body, occurrences ampersand body = c - 1 ->
       parameterCount body (effectiveLimit (configuredLimit options))
         = Some (c - 1) /\
       exists mapping, completion_of (decode body) = Normal mapping).
Proof.
  intros Hc Hl.
  rewrite (effectiveLimit_configured options Hl).
  rewrite (selectedParser_of_Z options Hl) by lia.
  rewrite wrap32_small by lia.
  eexists. split; [reflexivity|]. split.
  - intros body Hbody.
    assert (Hover : parameterCount body (VNumber (of_Z c)) = None).
    { rewrite parameterCount_of_Z, Hbody.
      rewrite (proj2 (Z.leb_le 1 c)) by lia.
      rewrite Z.leb_refl. reflexivity. }
    destruct (negb (is_false (Options.extended options))).
    + apply extended_queryparse_over, Hover.
    + apply simple_queryparse_over, Hover.
  - intros body Hbody.
    assert (Hunder : parameterCount body (VNumber (of_Z c)) = Some (c - 1)).
    { rewrite parameterCount_of_Z, Hbody.
      rewrite (proj2 (Z.leb_gt c (c - 1))) by lia.
      rewrite andb_false_r. reflexivity. }
    split; [exact Hunder|].
    destruct (negb (is_false (Options.extended options))).
    + rewrite (extended_queryparse_under _ _ Hunder). eexists; reflexivity.
    + rewrite (simple_queryparse_under _ _ Hunder). eexists; reflexivity.
Qed.

(** An effective ceiling that is an integer below one never stops the
    counter. *)
Lemma parameterCount_unbounded (body : string) (c : Z) :
  c < 1 ->
  parameterCount body (VNumber (of_Z c)) = Some (occurrences ampersand body).
Proof.
  intros Hc. rewrite parameterCount_of_Z.
  rewrite (proj2 (Z.leb_gt 1 c)) by lia. reflexivity.
Qed.

Lemma wrap32_two_pow_31 : wrap32 (2 ^ 31) = - 2 ^ 31.
Proof. reflexivity. Qed.

(** C1: for every configured ceiling [c], a positive integer, and every
    body the runtime can hold (its strings are shorter than [2^31]
    characters; V8 stops at [2^29 - 24]): if the body has exactly [c]
    separators the selected decoder fails with the 413 error of kind
    [parameters.too.many] and calls no parser; if it has exactly
    [c - 1], the counter returns [c - 1] and the decoder returns a
    mapping. *)
Theorem ceiling_enforced (options : Options.t) (c : Z) :
  1 <= c ->
  Options.parameterLimit options = VNumber (of_Z c) ->
  exists decode,
    selectedParser options = (Normal decode, []) /\
    (forall body,
       Z.of_nat (String.length body) < 2 ^ 31 ->
       occurrences ampersand body = c ->
       decode body =
         (Throw (createError 413 "too many parameters"
                   [("type", VString "parameters.too.many")]),
          [Debug "too many parameters" []])) /\
    (forall body,
       Z.of_nat (String.length body) < 2 ^ 31 ->
       occurrences ampersand body = c - 1 ->
       parameterCount body (effectiveLimit (configuredLimit options))
         = Some (c - 1) /\
       exists mapping, completion_of (decode body) = Normal mapping).
Proof.
  intros Hc Hl.
  destruct (Z.lt_ge_cases c (2 ^ 31)) as [Hsmall|Hlarge].
  - destruct (ceiling_enforced_below_two_pow_31 options (conj Hc Hsmall) Hl)
      as (decode & Hsel & Hover & Hunder).
    exists decode. split; [exact Hsel|]. split.
    + intros body _. apply Hover.
    + intros body _. apply Hunder.
  - rewrite (effectiveLimit_configured options Hl).
    rewrite (selectedParser_of_Z options Hl) by lia.
    eexists. split; [reflexivity|]. split.
    + intros body Hlen Hbody.
      pose proof (occurrences_le_length ampersand body). lia.
    + intros body Hlen Hbody.
      pose proof (occurrences_le_length ampersand body) as Hle.
      assert (c = 2 ^ 31) as -> by lia.
      rewrite wrap32_two_pow_31.
      assert (Hcount : parameterCount body (VNumber (of_Z (- 2 ^ 31)))
                       = Some (2 ^ 31 - 1)).
      { rewrite parameterCount_unbounded by lia. rewrite Hbody. reflexivity. }
      split; [exact Hcount|].
      destruct (negb (is_false (Options.extended options))).
      * rewrite (extended_queryparse_under _ _ Hcount). eexists; reflexivity.
      * rewrite (simple_queryparse_under _ _ Hcount). eexists; reflexivity.
Qed.


(** C7: when the counter returns a count, the extended decoder calls
    [qs.parse] with [allowPrototypes: true], [depth: Infinity] and
    [arrayLimit: Math.max(100, count)], and the simple decoder calls
    [querystring.parse] with [maxKeys] set to its [parameterLimit]; each
    returns what its parser returns. *)
Theorem decoders_delegate_with_fixed_options
    (parameterLimit : value) (body : string) (paramCount : Z) :
  parameterCount body parameterLimit = Some paramCount ->
  extended_queryparse parameterLimit body =
    (Normal (qs_parse body
               {| allowPrototypes := true;
                  arrayLimit := Z.max 100 paramCount;
                  depth := PosInf;
                  qs_parameterLimit := parameterLimit |}),
     [Debug "parse extended urlencoding" [];
      QsParse body
        {| allowPrototypes := true;
           arrayLimit := Z.max 100 paramCount;
           depth := PosInf;
           qs_parameterLimit := parameterLimit |}]) /\
  simple_queryparse parameterLimit body =
    (Normal (querystring_parse body parameterLimit),
     [Debug "parse urlencoding" [];
      QuerystringParse body parameterLimit]).
Proof.
  intros Hcount. split.
  - apply (extended_queryparse_under _ _ Hcount).
  - apply (simple_queryparse_under _ _ Hcount).
Qed.

End Ceiling.

(** With a ceiling of two, the extended decoder is built and obeys it. *)
Lemma ceiling_enforced_at_two :
  exists decode,
    selectedParser (ext := Sample.externals)
      (Sample.options_with (VBool true) (VNumber (of_Z 2)))
      = (Normal decode, []) /\
    (forall body,
       Z.of_nat (String.length body) < 2 ^ 31 ->
       occurrences ampersand body = 2 ->
       decode body =
         (Throw (createError 413 "too many parameters"
                   [("type", VString "parameters.too.many")]),
          [Debug "too many parameters" []])) /\
    (forall body,
       Z.of_nat (String.length body) < 2 ^ 31 ->
       occurrences ampersand body = 2 - 1 ->
       parameterCount body
         (effectiveLimit (ext := Sample.externals)
            (configuredLimit
               (Sample.options_with (VBool true) (VNumber (of_Z 2)))))
         = Some (2 - 1) /\
       exists mapping, completion_of (decode body) = Normal mapping).
Proof.
  apply (@ceiling_enforced Sample.externals
           (Sample.options_with (VBool true) (VNumber (of_Z 2))) 2).
  - lia.
  - reflexivity.
Defined.

(** Two separators against a ceiling of two, run through the loop. *)
Example two_separators_rejected :
  parameterCount "a=1&b=2&c=3" (VNumber (of_Z 2)) = None /\
  parameterCount "a=1&b=2" (VNumber (of_Z 2)) = Some 1.
Proof. split; reflexivity. Qed.

(** One separator, counted and handed to both parsers. *)
Lemma decoders_delegate_on_two_fields :
  extended_queryparse (ext := Sample.externals) (VNumber (of_Z 1000))
      "a=1&b=2" =
    (Normal (qs_parse (Externals := Sample.externals) "a=1&b=2"
               {| allowPrototypes := true;
                  arrayLimit := Z.max 100 1;
                  depth := PosInf;
                  qs_parameterLimit := VNumber (of_Z 1000) |}),
     [Debug "parse extended urlencoding" [];
      QsParse "a=1&b=2"
        {| allowPrototypes := true;
           arrayLimit := Z.max 100 1;
           depth := PosInf;
           qs_parameterLimit := VNumber (of_Z 1000) |}]) /\
  simple_queryparse (ext := Sample.externals) (VNumber (of_Z 1000))
      "a=1&b=2" =
    (Normal (querystring_parse (Externals := Sample.externals) "a=1&b=2"
               (VNumber (of_Z 1000))),
     [Debug "parse urlencoding" [];
      QuerystringParse "a=1&b=2" (VNumber (of_Z 1000))]).
Proof.
  apply (@decoders_delegate_with_fixed_options Sample.externals
           (VNumber (of_Z 1000)) "a=1&b=2" 1).
  reflexivity.
Defined.

(** ** Construction *)

Section Construction.

Context {ext : Externals}.

(** [verify || false] passes the check exactly when [verify] is falsy or
    a function. *)
Lemma verify_check (v : value) :
  negb (is_false (JS.or v (VBool false)))
    && negb (is_function (JS.or v (VBool false)))
  = truthy v && negb (is_function v).
Proof.
  unfold JS.or. destruct (truthy v) eqn:E; [|reflexivity].
  destruct v as [| |[|]| | | |]; try reflexivity; discriminate E.
Qed.

(** The constructor, case by case. *)
Lemma UrlencodedParser_cases (options : option Options.t) :
  let opts := given options in
  UrlencodedParser options =
    if truthy (Options.verify opts) && negb (is_function (Options.verify opts))
    then (Throw (TypeError "option verify must be function"), notice opts)
    else if invalidLimit (configuredLimit opts)
    then (Throw (TypeError "option parameterLimit must be a positive number"),
          notice opts)
    else
      (Normal
         {| parsedLimit :=
              if negb (is_number (Options.limit opts))
              then bytes_parse (JS.or (Options.limit opts) (VString "100kb"))
              else Options.limit opts;
            parsedInflate := negb (is_false (Options.inflate opts));
            parsedType :=
              JS.or (Options.type opts)
                (VString "application/x-www-form-urlencoded");
            parsedVerify := JS.or (Options.verify opts) (VBool false);
            queryparse :=
              (if negb (is_false (Options.extended opts))
               then extended_queryparse
               else simple_queryparse)
                (effectiveLimit (configuredLimit opts));
            shouldParse :=
              typeCheckerOf
                (JS.or (Options.type opts)
                   (VString "application/x-www-form-urlencoded")) |},
       notice opts).
Proof.
  intros opts. unfold UrlencodedParser. fold opts.
  rewrite verify_check. unfold notice, selectedParser, extendedparser,
    simpleparser.
  destruct (is_undefined (Options.extended opts));
    destruct (truthy (Options.verify opts)
              && negb (is_function (Options.verify opts)));
    try reflexivity;
    destruct (invalidLimit (configuredLimit opts));
    destruct (negb (is_false (Options.extended opts)));
    reflexivity.
Qed.






(** C9: a successful construction with [extended] true or absent holds
    the extended decoder, with [extended] false the simple one; the
    deprecation notice is given exactly when [extended] is absent; an
    absent [parameterLimit] is a ceiling of 1000 and an absent [limit]
    is what [bytes.parse] makes of [100kb]. *)
Theorem strategy_and_defaults
    (options : option Options.t) (self : instance) (t : list event) :
  UrlencodedParser options = (Normal self, t) ->
  (Options.extended (given options) = VBool true ->
     queryparse self
       = extended_queryparse (effectiveLimit (configuredLimit (given options)))
     /\ t = []) /\
  (Options.extended (given options) = VUndefined ->
     queryparse self
       = extended_queryparse (effectiveLimit (configuredLimit (given options)))
     /\ t = [Deprecate "undefined extended: provide extended option"]) /\
  (Options.extended (given options) = VBool false ->
     queryparse self
       = simple_queryparse (effectiveLimit (configuredLimit (given options)))
     /\ t = []) /\
  (Options.parameterLimit (given options) = VUndefined ->
     effectiveLimit (configuredLimit (given options)) = VNumber (of_Z 1000)) /\
  (Options.limit (given options) = VUndefined ->
     parsedLimit self = bytes_parse (VString "100kb")).
Proof.
  pose proof (UrlencodedParser_cases options) as Hc. cbv zeta in Hc.
  rewrite Hc. clear Hc.
  destruct (truthy (Options.verify (given options))
            && negb (is_function (Options.verify (given options))));
    [discriminate|].
  destruct (invalidLimit (configuredLimit (given options)));
    [discriminate|].
  intros H. injection H as <- <-. unfold notice. cbn [queryparse parsedLimit].
  split; [|split; [|split; [|split]]]; intros H.
  - rewrite H. split; reflexivity.
  - rewrite H. split; reflexivity.
  - rewrite H. split; reflexivity.
  - unfold configuredLimit. rewrite H. cbn [is_undefined negb].
    rewrite effectiveLimit_of_Z. reflexivity.
  - rewrite H. reflexivity.
Qed.

End Construction.

(** ** The request handler *)

Section Handler.

Context {ext : Externals}.

(** The two request errors of the module, by status and kind. *)
Lemma error_kinds (charset : string) :
  exn_status tooManyParameters = Some 413 /\
  exn_kind tooManyParameters = Some (VString "parameters.too.many") /\
  exn_status (unsupportedCharset charset) = Some 415 /\
  exn_kind (unsupportedCharset charset) = Some (VString "charset.unsupported") /\
  exn_message (unsupportedCharset charset) =
    "unsupported charset " ++ double_quote ++ toUpperCase charset
      ++ double_quote.
Proof. repeat split. Qed.

Lemma checkParse_cases (req : Request.t) (self : instance) (charset : string) :
  checkParse req self charset =
    if truthy (Request._body req)
    then (Normal false, [Debug "body already parsed" []; Next None])
    else if negb (typeis_hasBody req)
    then (Normal false, [Debug "skip empty body" []; Next None])
    else if negb (shouldParse self req)
    then (Normal false,
          [Debug "content-type %j" [Request.header req "content-type"];
           Debug "skip parsing" []; Next None])
    else if negb (String.eqb charset "utf-8")
    then (Normal false,
          [Debug "content-type %j" [Request.header req "content-type"];
           Debug "invalid charset" [];
           Next (Some (unsupportedCharset charset))])
    else (Normal true,
          [Debug "content-type %j" [Request.header req "content-type"]]).
Proof.
  unfold checkParse.
  destruct (truthy (Request._body req)); [reflexivity|].
  destruct (negb (typeis_hasBody req)); [reflexivity|].
  destruct (negb (shouldParse self req)); [reflexivity|].
  destruct (negb (String.eqb charset "utf-8")); reflexivity.
Qed.

(** When [checkParse] says no, the handler returns at once. *)
Lemma createReader_stops (self : instance) (req : Request.t) (t : list event) :
  checkParse (placeholder req) self (resolvedCharset req) = (Normal false, t) ->
  createReader self req = (Normal (placeholder req), t).
Proof.
  intros H. unfold createReader. rewrite H. cbn.
  rewrite app_nil_r. reflexivity.
Qed.

(** When it says yes, the handler is the reader. *)
Lemma createReader_reads (self : instance) (req : Request.t) (t : list event) :
  checkParse (placeholder req) self (resolvedCharset req) = (Normal true, t) ->
  createReader self req =
    let '(c, t') :=
      Reader (placeholder req) (parseBody self)
        {| encoding := resolvedCharset req;
           inflate := parsedInflate self;
           limit := parsedLimit self;
           verify := parsedVerify self |} in
    (c, (t ++ t')%list).
Proof.
  intros H. unfold createReader. rewrite H. reflexivity.
Qed.

Lemma Reader_cases (req : Request.t) (parse : string -> M value)
    (options : reader_options) :
  Reader req parse options =
    match acquire req options with
    | inl err => (Normal req, [ReaderCalled options; Next (Some err)])
    | inr body =>
        match parse body with
        | (Normal mapping, t) =>
            (Normal (Request.set__body (Request.set_body req mapping)
                       (VBool true)),
             (ReaderCalled options :: t ++ [Next None])%list)
        | (Throw err, t) =>
            (Normal req,
             (ReaderCalled options :: t ++ [Next (Some err)])%list)
        end
    end.
Proof.
  unfold Reader. destruct (acquire req options) as [err|body].
  - reflexivity.
  - destruct (parse body) as [[mapping|err] t]; cbn;
      rewrite ?app_nil_r; reflexivity.
Qed.

Lemma placeholder_truthy (req : Request.t) :
  truthy (Request.body req) = true -> placeholder req = req.
Proof.
  intros H. unfold placeholder, JS.or. rewrite H.
  destruct req; reflexivity.
Qed.

Lemma placeholder_falsy (req : Request.t) :
  truthy (Request.body req) = false ->
  placeholder req = Request.set_body req empty_object.
Proof. intros H. unfold placeholder, JS.or. rewrite H. reflexivity. Qed.

End Handler.

Section Requests.

Context {ext : Externals}.

(** C8: the handler asks, in this order, whether the request already
    carries a parsed body, whether it has a body at all, and whether its
    media type is the configured one; the first check that fails ends
    the call with [next()] and nothing read, whatever the later checks
    would say; a request that passes all three is judged on its charset. *)
Theorem eligibility_checks_in_order (self : instance) (req : Request.t) :
  (truthy (Request._body req) = true ->
     createReader self req =
       (Normal (placeholder req),
        [Debug "body already parsed" []; Next None])) /\
  (truthy (Request._body req) = false ->
   typeis_hasBody (placeholder req) = false ->
     createReader self req =
       (Normal (placeholder req),
        [Debug "skip empty body" []; Next None])) /\
  (truthy (Request._body req) = false ->
   typeis_hasBody (placeholder req) = true ->
   shouldParse self (placeholder req) = false ->
     createReader self req =
       (Normal (placeholder req),
        [Debug "content-type %j"
           [Request.header (placeholder req) "content-type"];
         Debug "skip parsing" []; Next None])) /\
  (truthy (Request._body req) = false ->
   typeis_hasBody (placeholder req) = true ->
   shouldParse self (placeholder req) = true ->
     checkParse (placeholder req) self (resolvedCharset req) =
       if String.eqb (resolvedCharset req) "utf-8"
       then (Normal true,
             [Debug "content-type %j"
                [Request.header (placeholder req) "content-type"]])
       else (Normal false,
             [Debug "content-type %j"
                [Request.header (placeholder req) "content-type"];
              Debug "invalid charset" [];
              Next (Some (unsupportedCharset (resolvedCharset req)))])).
Proof.
  pose proof (checkParse_cases (placeholder req) self (resolvedCharset req))
    as Hc.
  change (Request._body (placeholder req)) with (Request._body req) in Hc.
  repeat split.
  - intros Hb. apply createReader_stops. rewrite Hc, Hb. reflexivity.
  - intros Hb Hh. apply createReader_stops. rewrite Hc, Hb, Hh. reflexivity.
  - intros Hb Hh Hs. apply createReader_stops.
    rewrite Hc, Hb, Hh, Hs. reflexivity.
  - intros Hb Hh Hs. rewrite Hc, Hb, Hh, Hs. cbn [negb].
    destruct (String.eqb (resolvedCharset req) "utf-8"); reflexivity.
Qed.

(** C2, as amended: charset resolution is a total function, which gives
    [utf-8] when [contentType.parse] fails (header absent or
    unparsable); for a request that passes the three eligibility checks and whose resolved charset
    is not [utf-8], the handler calls [next] with the 415 error of kind
    [charset.unsupported], whose message quotes the charset in upper
    case, and never calls the reader. *)
Theorem unsupported_charset_rejected_when_eligible
    (self : instance) (req : Request.t) :
  (contentType_parse req = None -> resolvedCharset req = "utf-8") /\
  (truthy (Request._body req) = false ->
   typeis_hasBody (placeholder req) = true ->
   shouldParse self (placeholder req) = true ->
   resolvedCharset req <> "utf-8" ->
     createReader self req =
       (Normal (placeholder req),
        [Debug "content-type %j"
           [Request.header (placeholder req) "content-type"];
         Debug "invalid charset" [];
         Next (Some (createError 415
                       ("unsupported charset " ++ double_quote
                          ++ toUpperCase (resolvedCharset req)
                          ++ double_quote)
                       [("charset", VString (resolvedCharset req));
                        ("type", VString "charset.unsupported")]))])).
Proof.
  repeat split.
  - intros H. unfold resolvedCharset, getCharset. rewrite H. reflexivity.
  - intros Hb Hh Hs Hne. apply createReader_stops.
    rewrite checkParse_cases.
    change (Request._body (placeholder req)) with (Request._body req).
    rewrite Hb, Hh, Hs. cbn [negb].
    destruct (String.eqb_spec (resolvedCharset req) "utf-8") as [E|_];
      [contradiction | reflexivity].
Qed.

(** C6, as amended: for a request that already carries a parsed body
    the handler calls [next()] and returns; so it does on every exit
    where [checkParse] says no.  What it leaves behind is the request
    with [req.body || {}] in the body field: a truthy body is kept as it
    was, a falsy one ([undefined], [null], [false], [0], [NaN], the
    empty string) is replaced by the empty object. *)
Theorem parsed_request_is_skipped (self : instance) (req : Request.t) :
  (truthy (Request._body req) = true ->
     createReader self req =
       (Normal (placeholder req),
        [Debug "body already parsed" []; Next None])) /\
  (forall t,
     checkParse (placeholder req) self (resolvedCharset req)
       = (Normal false, t) ->
     createReader self req = (Normal (placeholder req), t)) /\
  (truthy (Request.body req) = true -> placeholder req = req) /\
  (truthy (Request.body req) = false ->
     placeholder req = Request.set_body req empty_object).
Proof.
  repeat split.
  - intros Hb. apply createReader_stops. rewrite checkParse_cases.
    change (Request._body (placeholder req)) with (Request._body req).
    rewrite Hb. reflexivity.
  - intros t. apply createReader_stops.
  - apply placeholder_truthy.
  - apply placeholder_falsy.
Qed.

(** Neither decoder calls [next]. *)
Lemma queryparse_trace (limit : value) (body : string) (err : option exn) :
  ~ In (Next err) (trace_of (extended_queryparse limit body)) /\
  ~ In (Next err) (trace_of (simple_queryparse limit body)).
Proof.
  unfold extended_queryparse, simple_queryparse.
  destruct (parameterCount body limit); cbn; split;
    intros H; repeat (destruct H as [H|H]; [discriminate H|]); exact H.
Qed.

Lemma built_queryparse (options : option Options.t) (self : instance)
    (t : list event) :
  UrlencodedParser options = (Normal self, t) ->
  exists limit,
    queryparse self = extended_queryparse limit \/
    queryparse self = simple_queryparse limit.
Proof.
  pose proof (UrlencodedParser_cases options) as Hc. cbv zeta in Hc.
  rewrite Hc. clear Hc.
  destruct (truthy (Options.verify (given options))
            && negb (is_function (Options.verify (given options))));
    [discriminate|].
  destruct (invalidLimit (configuredLimit (given options)));
    [discriminate|].
  intros H. injection H as <- _. cbn [queryparse].
  exists (effectiveLimit (configuredLimit (given options))).
  destruct (negb (is_false (Options.extended (given options))));
    [left | right]; reflexivity.
Qed.

Lemma parseBody_trace (options : option Options.t) (self : instance)
    (t : list event) (body : string) (err : option exn) :
  UrlencodedParser options = (Normal self, t) ->
  ~ In (Next err) (trace_of (parseBody self body)).
Proof.
  intros Hbuilt. unfold parseBody.
  destruct (negb (Nat.eqb (String.length body) 0)); [|intros []].
  destruct (built_queryparse options Hbuilt) as [limit [-> | ->]];
    apply queryparse_trace.
Qed.

(** The two ways the reader reports an error: its own failure, and a
    failure of the callback.  Either way the request is handed back as
    it was given. *)
Lemma reader_failure_forwarded (self : instance) (req : Request.t)
    (t : list event) (err : exn) :
  checkParse (placeholder req) self (resolvedCharset req) = (Normal true, t) ->
  acquire (placeholder req)
    {| encoding := resolvedCharset req; inflate := parsedInflate self;
       limit := parsedLimit self; verify := parsedVerify self |} = inl err ->
  createReader self req =
    (Normal (placeholder req),
     (t ++ [ReaderCalled
              {| encoding := resolvedCharset req;
                 inflate := parsedInflate self;
                 limit := parsedLimit self;
                 verify := parsedVerify self |};
            Next (Some err)])%list).
Proof.
  intros Hc Ha. rewrite (createReader_reads _ _ Hc), Reader_cases, Ha.
  reflexivity.
Qed.

Lemma decoder_failure_forwarded (self : instance) (req : Request.t)
    (t tp : list event) (body : string) (err : exn) :
  checkParse (placeholder req) self (resolvedCharset req) = (Normal true, t) ->
  acquire (placeholder req)
    {| encoding := resolvedCharset req; inflate := parsedInflate self;
       limit := parsedLimit self; verify := parsedVerify self |} = inr body ->
  parseBody self body = (Throw err, tp) ->
  createReader self req =
    (Normal (placeholder req),
     (t ++ ReaderCalled
             {| encoding := resolvedCharset req;
                inflate := parsedInflate self;
                limit := parsedLimit self;
                verify := parsedVerify self |}
          :: tp ++ [Next (Some err)])%list).
Proof.
  intros Hc Ha Hp. rewrite (createReader_reads _ _ Hc), Reader_cases, Ha, Hp.
  reflexivity.
Qed.

(** C3: on a middleware that was constructed, whenever the handler hands
    an error to [next] (unsupported charset, a failure of the reader, a
    failure of the decoder) it leaves the request with [req.body || {}]
    in the body field, that is with what the field held before, or with
    the empty object if that was falsy: nothing that was decoded is
    stored. *)
Theorem no_mapping_attached_on_error
    (options : option Options.t) (self : instance) (t : list event)
    (req : Request.t) (e : exn) :
  UrlencodedParser options = (Normal self, t) ->
  In (Next (Some e)) (trace_of (createReader self req)) ->
  exists req',
    completion_of (createReader self req) = Normal req' /\
    Request.body req' = JS.or (Request.body req) empty_object.
Proof.
  intros Hbuilt Herr.
  exists (placeholder req). split; [|reflexivity].
  destruct (checkParse (placeholder req) self (resolvedCharset req))
    as [[[|]|err] tc] eqn:Hc.
  - rewrite (createReader_reads _ _ Hc) in *.
    rewrite checkParse_cases in Hc.
    rewrite Reader_cases in *.
    assert (Htc : ~ In (Next (Some e)) tc).
    { destruct (truthy (Request._body (placeholder req))); [discriminate|].
      destruct (negb (typeis_hasBody (placeholder req))); [discriminate|].
      destruct (negb (shouldParse self (placeholder req))); [discriminate|].
      destruct (negb (String.eqb (resolvedCharset req) "utf-8"));
        [discriminate|].
      injection Hc as <-. intros [H|[]]; discriminate H. }
    destruct (acquire _ _) as [err|body]; [reflexivity|].
    pose proof (@parseBody_trace options self t body (Some e) Hbuilt) as Hp.
    destruct (parseBody self body) as [[mapping|err] tp]; [|reflexivity].
    exfalso. cbn in Herr, Hp.
    apply in_app_or in Herr. destruct Herr as [H|H]; [contradiction|].
    destruct H as [H|H]; [discriminate H|].
    apply in_app_or in H. destruct H as [H|[H|[]]];
      [contradiction | discriminate H].
  - rewrite (createReader_stops _ _ Hc). reflexivity.
  - rewrite checkParse_cases in Hc.
    destruct (truthy (Request._body (placeholder req))); [discriminate|].
    destruct (negb (typeis_hasBody (placeholder req))); [discriminate|].
    destruct (negb (shouldParse self (placeholder req))); [discriminate|].
    destruct (negb (String.eqb (resolvedCharset req) "utf-8"));
      discriminate.
Qed.


(** Through the reader: an eligible request whose body arrives empty
    ends with the empty object stored and [next()] called; no parser
    event is in the trace. *)
Lemma empty_body_attached (self : instance) (req : Request.t) (t : list event) :
  checkParse (placeholder req) self (resolvedCharset req) = (Normal true, t) ->
  acquire (placeholder req)
    {| encoding := resolvedCharset req; inflate := parsedInflate self;
       limit := parsedLimit self; verify := parsedVerify self |} = inr "" ->
  createReader self req =
    (Normal (Request.set__body
               (Request.set_body (placeholder req) empty_object)
               (VBool true)),
     (t ++ [ReaderCalled
              {| encoding := resolvedCharset req;
                 inflate := parsedInflate self;
                 limit := parsedLimit self;
                 verify := parsedVerify self |};
            Next None])%list).
Proof.
  intros Hc Ha. rewrite (createReader_reads _ _ Hc), Reader_cases, Ha.
  reflexivity.
Qed.

End Requests.

(** ** The pipeline on concrete requests *)

#[local] Existing Instance Sample.externals.

(** Construction without options: the extended decoder over a ceiling of
    1000, the notice, a limit of 100kb. *)
Lemma default_construction :
  exists self t,
    UrlencodedParser (ext := Sample.externals) None = (Normal self, t) /\
    queryparse self
      = extended_queryparse (ext := Sample.externals) (VNumber (of_Z 1000)) /\
    t = [Deprecate "undefined extended: provide extended option"] /\
    parsedLimit self = VNumber (of_Z 102400).
Proof.
  eexists. eexists. split; [reflexivity|].
  destruct (@strategy_and_defaults Sample.externals None _ _ eq_refl)
    as (_ & Habsent & _ & Hceiling & Hlimit).
  destruct (Habsent eq_refl) as [Hq Ht].
  split; [|split].
  - rewrite Hq, (Hceiling eq_refl). reflexivity.
  - exact Ht.
  - rewrite (Hlimit eq_refl). reflexivity.
Defined.



(** A frozen object with valid options: the write is refused. *)
Example frozen_options_refused :
  construct (Sealed (Sample.options_with (VBool true) (VNumber (of_Z 10))))
  = (Throw (TypeError
              "Cannot add property parsedLimit, object is not extensible"),
     []).
Proof. reflexivity. Qed.


(** C2 as stated fails for a request that is not eligible: a JSON
    request declaring [latin1] is passed on with no error. *)
Lemma skipped_latin1_request_raises_nothing :
  exists self t,
    UrlencodedParser (ext := Sample.externals) None = (Normal self, t) /\
    resolvedCharset (ext := Sample.externals)
      (Sample.form_request "application/json; charset=latin1" "{}")
      = "latin1" /\
    trace_of
      (createReader self
         (Sample.form_request "application/json; charset=latin1" "{}"))
      = [Debug "content-type %j"
           [VString "application/json; charset=latin1"];
         Debug "skip parsing" []; Next None].
Proof.
  eexists. eexists. split; [reflexivity|]. split; reflexivity.
Qed.

(** C6 as stated fails for a parsed body that is falsy: the number [0]
    left by an earlier stage is replaced by the empty object. *)
Lemma falsy_parsed_body_replaced :
  exists self t,
    UrlencodedParser (ext := Sample.externals) None = (Normal self, t) /\
    exists req',
      createReader self (Sample.parsed_request (VNumber (of_Z 0)))
        = (Normal req', [Debug "body already parsed" []; Next None]) /\
      Request.body req' = empty_object /\
      Request.body req'
        <> Request.body (Sample.parsed_request (VNumber (of_Z 0))).
Proof.
  eexists. eexists. split; [reflexivity|].
  eexists. split; [reflexivity|]. split; [reflexivity | discriminate].
Qed.

(** A form declaring [latin1] is refused, and what comes back is the
    request with the placeholder in its body field. *)
Lemma latin1_form_keeps_placeholder :
  exists self t,
    UrlencodedParser (ext := Sample.externals) None = (Normal self, t) /\
    exists req',
      completion_of
        (createReader self
           (Sample.form_request
              "application/x-www-form-urlencoded; charset=latin1" "a=1"))
        = Normal req' /\
      Request.body req' = JS.or VUndefined empty_object.
Proof.
  eexists. eexists. split; [reflexivity|].
  eapply (@no_mapping_attached_on_error Sample.externals None _ _
           (Sample.form_request
              "application/x-www-form-urlencoded; charset=latin1" "a=1")
           (unsupportedCharset (ext := Sample.externals) "latin1")).
  - reflexivity.
  - right. right. left. reflexivity.
Defined.

(** The charset scenarios: [UTF-8] and no charset are read and decoded,
    [latin1] is refused with [LATIN1] in the message. *)
Example utf8_form_decoded :
  exists self t,
    UrlencodedParser (ext := Sample.externals)
      (Some (Sample.options_with (VBool true) VUndefined))
      = (Normal self, t) /\
    createReader self
      (Sample.form_request
         "application/x-www-form-urlencoded; charset=UTF-8" "a=1&b=2")
    = (Normal
         {| Request._body := VBool true;
            Request.body := VObject [("raw", VString "a=1&b=2")];
            Request.headers :=
              [("content-type",
                "application/x-www-form-urlencoded; charset=UTF-8");
               ("transfer-encoding", "chunked")];
            Request.payload := "a=1&b=2" |},
       [Debug "content-type %j"
          [VString "application/x-www-form-urlencoded; charset=UTF-8"];
        ReaderCalled
          {| encoding := "utf-8"; inflate := true;
             limit := VNumber (of_Z 102400); verify := VBool false |};
        Debug "parse extended urlencoding" [];
        QsParse "a=1&b=2"
          {| allowPrototypes := true; arrayLimit := 100;
             depth := PosInf; qs_parameterLimit := VNumber (of_Z 1000) |};
        Next None]).
Proof. eexists. eexists. split; reflexivity. Qed.

Lemma latin1_form_refused :
  exists self t,
    UrlencodedParser (ext := Sample.externals) None = (Normal self, t) /\
    createReader self
      (Sample.form_request
         "application/x-www-form-urlencoded; charset=latin1" "a=1")
    = (Normal
         (placeholder
            (Sample.form_request
               "application/x-www-form-urlencoded; charset=latin1" "a=1")),
       [Debug "content-type %j"
          [VString "application/x-www-form-urlencoded; charset=latin1"];
        Debug "invalid charset" [];
        Next (Some (createError 415
                      ("unsupported charset " ++ double_quote ++ "LATIN1"
                         ++ double_quote)
                      [("charset", VString "latin1");
                       ("type", VString "charset.unsupported")]))]).
Proof.
  eexists. eexists. split; [reflexivity|].
  refine (proj2 (@unsupported_charset_rejected_when_eligible
                   Sample.externals _ _) _ _ _ _);
    [reflexivity | reflexivity | reflexivity | discriminate].
Defined.

(** A request without [content-length] or [transfer-encoding] has no
    body: the second check ends the call. *)
Lemma bodiless_request_skipped :
  exists self t,
    UrlencodedParser (ext := Sample.externals) None = (Normal self, t) /\
    createReader self
      {| Request._body := VUndefined; Request.body := VUndefined;
         Request.headers :=
           [("content-type", "application/x-www-form-urlencoded")];
         Request.payload := "" |}
    = (Normal
         (placeholder
            {| Request._body := VUndefined; Request.body := VUndefined;
               Request.headers :=
                 [("content-type", "application/x-www-form-urlencoded")];
               Request.payload := "" |}),
       [Debug "skip empty body" []; Next None]).
Proof.
  eexists. eexists. split; [reflexivity|].
  refine (proj1 (proj2 (@eligibility_checks_in_order
                          Sample.externals _ _)) _ _);
    reflexivity.
Defined.

(** A request that carries a mapping from an earlier stage comes back
    as it went in. *)
Lemma parsed_mapping_untouched :
  exists self t,
    UrlencodedParser (ext := Sample.externals) None = (Normal self, t) /\
    createReader self
      (Sample.parsed_request (VObject [("a", VString "1")]))
    = (Normal (Sample.parsed_request (VObject [("a", VString "1")])),
       [Debug "body already parsed" []; Next None]).
Proof.
  eexists. eexists. split; [reflexivity|].
  refine (proj1 (@parsed_request_is_skipped Sample.externals _ _) _).
  reflexivity.
Defined.

(** Three separators against a ceiling of two: the 413 error goes to
    [next] and the body field keeps the placeholder. *)
Example overflow_forwarded :
  exists self t,
    UrlencodedParser (ext := Sample.externals)
      (Some (Sample.options_with (VBool false) (VNumber (of_Z 2))))
      = (Normal self, t) /\
    createReader self
      (Sample.form_request "application/x-www-form-urlencoded" "a=1&b=2&c=3")
    = (Normal
         (placeholder
            (Sample.form_request "application/x-www-form-urlencoded"
               "a=1&b=2&c=3")),
       [Debug "content-type %j"
          [VString "application/x-www-form-urlencoded"];
        ReaderCalled
          {| encoding := "utf-8"; inflate := true;
             limit := VNumber (of_Z 102400); verify := VBool false |};
        Debug "too many parameters" [];
        Next (Some (createError 413 "too many parameters"
                      [("type", VString "parameters.too.many")]))]).
Proof. eexists. eexists. split; reflexivity. Qed.

(** * Further properties *)

(** ** The parameter counter, in full *)

Section Scanning.

Variable limit : value.

Lemma drop_cons (n : nat) (a : ascii) (s : string) :
  drop (S n) (String a s) = drop n s.
Proof. reflexivity. Qed.

(** What [find_from] reports, in terms of the separators left. *)
Lemma find_from_occurrences (s : string) (i : Z) :
  0 <= i ->
  (find_from ampersand s i = -1 /\ occurrences ampersand s = 0) \/
  (i <= find_from ampersand s i < i + Z.of_nat (String.length s) /\
   occurrences ampersand
     (drop (S (Z.to_nat (find_from ampersand s i - i))) s)
   = occurrences ampersand s - 1).
Proof.
  revert i; induction s as [|a s IH]; intros i Hi.
  - left. split; reflexivity.
  - cbn [find_from occurrences String.length].
    destruct (Ascii.eqb a ampersand).
    + right. split; [lia|].
      replace (i - i) with 0 by lia. change (Z.to_nat 0) with O.
      rewrite drop_cons. cbn [drop]. lia.
    + destruct (IH (i + 1)) as [[Hj Ho] | [Hj Ho]]; [lia | |].
      * left. split; [assumption | lia].
      * right. split; [lia|].
        replace (Z.to_nat (find_from ampersand s (i + 1) - i))
          with (S (Z.to_nat (find_from ampersand s (i + 1) - (i + 1))))
          by lia.
        rewrite drop_cons, Ho. lia.
Qed.

(** The scan either stops at a running count that is strictly equal to
    the limit, or meets no such count and returns the total. *)
Lemma scan_cases (s : string) (count : Z) :
  (scan s limit count = None /\
   exists k, count < k <= count + occurrences ampersand s /\
             strict_equals_int k limit = true) \/
  (scan s limit count = Some (count + occurrences ampersand s) /\
   forall k, count < k <= count + occurrences ampersand s ->
             strict_equals_int k limit = false).
Proof.
  revert count; induction s as [|a s IH]; intros count.
  - right. cbn. split; [f_equal; lia | intros k Hk; lia].
  - cbn [scan occurrences].
    pose proof (occurrences_nonneg ampersand s) as Hn.
    destruct (Ascii.eqb a ampersand).
    + destruct (strict_equals_int (count + 1) limit) eqn:E.
      * left. split; [reflexivity|]. exists (count + 1). split; [lia | exact E].
      * destruct (IH (count + 1)) as [[Hs [k [Hk Hit]]] | [Hs Hmiss]].
        -- left. split; [exact Hs|]. exists k. split; [lia | exact Hit].
        -- right. split; [rewrite Hs; f_equal; lia|].
           intros k Hk. destruct (Z.eq_dec k (count + 1)) as [->|Hne];
             [exact E | apply Hmiss; lia].
    + destruct (IH count) as [[Hs [k [Hk Hit]]] | [Hs Hmiss]].
      * left. split; [exact Hs|]. exists k. split; [lia | exact Hit].
      * right. split; [rewrite Hs; f_equal; lia|].
        intros k Hk. apply Hmiss. lia.
Qed.

(** The loop needs fuel only for the separators it still has to pass. *)
Lemma parameterCount_loop_separators (fuel : nat) (body : string) :
  forall count index,
    0 <= index <= Z.of_nat (String.length body) ->
    occurrences ampersand (drop (Z.to_nat index) body) < Z.of_nat fuel ->
    parameterCount_loop fuel body limit count index =
      Some (scan (drop (Z.to_nat index) body) limit count).
Proof.
  induction fuel as [|fuel IH]; intros count index Hindex Hfuel.
  - pose proof (occurrences_nonneg ampersand (drop (Z.to_nat index) body)).
    lia.
  - cbn [parameterCount_loop]. unfold indexOf.
    replace (Z.min (Z.max index 0) (Z.of_nat (String.length body)))
      with index by lia.
    pose proof (@scan_find_from limit (drop (Z.to_nat index) body) index count)
      as Hscan.
    pose proof (@find_from_occurrences (drop (Z.to_nat index) body) index)
      as Hocc.
    cbv zeta in Hscan. rewrite length_drop in Hscan, Hocc.
    set (j := find_from ampersand (drop (Z.to_nat index) body) index) in *.
    destruct Hscan as [[Hj Hs] | [Hj Hs]]; [lia | |].
    + rewrite Hj, Hs. reflexivity.
    + destruct Hocc as [[Hj' _] | [_ Ho]]; [lia | lia |].
      destruct (Z.eqb_spec j (-1)) as [E|_]; [lia|].
      rewrite Hs.
      destruct (strict_equals_int (count + 1) limit); [reflexivity|].
      rewrite drop_drop in Ho.
      replace (Z.to_nat index + S (Z.to_nat (j - index)))%nat
        with (Z.to_nat (j + 1)) in Ho by lia.
      rewrite IH by lia.
      rewrite drop_drop.
      replace (Z.to_nat index + S (Z.to_nat (j - index)))%nat
        with (Z.to_nat (j + 1)) by lia.
      reflexivity.
Qed.

End Scanning.

(** Against an integer ceiling [c] the loop answers at iteration
    [c - count] and not before, when that many separators are left. *)
Lemma parameterCount_loop_stops (c : Z) (fuel : nat) (body : string) :
  forall count index,
    0 <= index <= Z.of_nat (String.length body) ->
    count < c ->
    c - count <= occurrences ampersand (drop (Z.to_nat index) body) ->
    parameterCount_loop fuel body (VNumber (of_Z c)) count index =
      if Z.leb (c - count) (Z.of_nat fuel) then Some None else None.
Proof.
  induction fuel as [|fuel IH]; intros count index Hindex Hcount Hleft.
  - cbn [parameterCount_loop]. destruct (Z.leb_spec (c - count) (Z.of_nat 0));
      [lia | reflexivity].
  - cbn [parameterCount_loop]. unfold indexOf.
    replace (Z.min (Z.max index 0) (Z.of_nat (String.length body)))
      with index by lia.
    pose proof (@find_from_occurrences (drop (Z.to_nat index) body) index)
      as Hocc.
    rewrite length_drop in Hocc.
    set (j := find_from ampersand (drop (Z.to_nat index) body) index) in *.
    destruct Hocc as [[_ Ho] | [Hj Ho]]; [lia | lia |].
    destruct (Z.eqb_spec j (-1)) as [E|_]; [lia|].
    rewrite strict_equals_int_of_Z.
    destruct (Z.eqb_spec (count + 1) c) as [E|Hne].
    + destruct (Z.leb_spec (c - count) (Z.of_nat (S fuel)));
        [reflexivity | lia].
    + rewrite drop_drop in Ho.
      replace (Z.to_nat index + S (Z.to_nat (j - index)))%nat
        with (Z.to_nat (j + 1)) in Ho by lia.
      rewrite IH by lia.
      destruct (Z.leb_spec (c - (count + 1)) (Z.of_nat fuel)),
               (Z.leb_spec (c - count) (Z.of_nat (S fuel)));
        try reflexivity; lia.
Qed.

Lemma counter_cases (limit : value) (body : string) :
  (parameterCount body limit = None /\
   exists k, 1 <= k <= occurrences ampersand body /\
             strict_equals_int k limit = true) \/
  (parameterCount body limit = Some (occurrences ampersand body) /\
   forall k, 1 <= k <= occurrences ampersand body ->
             strict_equals_int k limit = false).
Proof.
  rewrite parameterCount_scan.
  destruct (scan_cases limit body 0) as [[Hs [k [Hk Hit]]] | [Hs Hmiss]].
  - left. split; [exact Hs|]. exists k. split; [lia | exact Hit].
  - right. split; [exact Hs|]. intros k Hk. apply Hmiss. lia.
Qed.

(** X1: whatever the limit, the counter returns [undefined] exactly when
    one of the running counts [1 .. number of separators] is strictly
    equal to the limit; a count it returns is the number of separators
    in the body. *)
Theorem counter_stops_or_counts_all (body : string) (limit : value) :
  (parameterCount body limit = None <->
   exists k, 1 <= k <= occurrences ampersand body /\
             strict_equals_int k limit = true) /\
  (forall n, parameterCount body limit = Some n ->
             n = occurrences ampersand body).
Proof.
  rewrite parameterCount_scan.
  destruct (scan_cases limit body 0) as [[Hs [k [Hk Hit]]] | [Hs Hmiss]];
    rewrite Hs; split.
  - split; [intros _; exists k; split; [lia | exact Hit] | reflexivity].
  - discriminate.
  - split; [discriminate|].
    intros [k [Hk Hit]]. rewrite Hmiss in Hit by lia. discriminate.
  - intros n Hn. injection Hn as <-. lia.
Qed.

(** X2: the loop stops at the limit.  One iteration more than there are
    separators always gives the answer; against an integer ceiling [c]
    that the body reaches, the loop gives [undefined] once it is allowed
    [c] iterations and gives nothing with fewer, however long the body
    is. *)
Theorem counter_iterations (body : string) :
  (forall limit,
     parameterCount_loop (S (Z.to_nat (occurrences ampersand body)))
       body limit 0 0
     = Some (parameterCount body limit)) /\
  (forall c fuel,
     1 <= c <= occurrences ampersand body ->
     parameterCount_loop fuel body (VNumber (of_Z c)) 0 0
       = if Z.leb c (Z.of_nat fuel) then Some None else None).
Proof.
  pose proof (occurrences_nonneg ampersand body) as Hn.
  split.
  - intros limit. rewrite parameterCount_scan.
    rewrite parameterCount_loop_separators; [reflexivity | simpl; lia|].
    change (Z.to_nat 0) with O. cbn [drop]. lia.
  - intros c fuel Hc.
    rewrite (@parameterCount_loop_stops c) by (simpl; lia).
    rewrite Z.sub_0_r. reflexivity.
Qed.

(** A body of three separators against a ceiling of two: two iterations. *)
Lemma counter_stops_after_two :
  parameterCount_loop 2 "a=1&b=2&c=3&d=4" (VNumber (of_Z 2)) 0 0
    = if Z.leb 2 (Z.of_nat 2) then Some None else None.
Proof.
  apply (proj2 (counter_iterations "a=1&b=2&c=3&d=4") 2 2%nat).
  split; [lia | discriminate].
Defined.

(** ** Ceilings of every kind *)

Section Ceilings.

Context {ext : Externals}.

Lemma truncate_bounds (q : Q) (lo hi : Z) :
  0 <= lo -> (inject_Z lo <= q)%Q -> (q < inject_Z hi)%Q ->
  lo <= truncate q < hi.
Proof.
  unfold Qle, Qlt, truncate, inject_Z. cbn [Qnum Qden].
  intros Hlo Hle Hlt. rewrite Z.mul_1_r in Hlt.
  assert (Hnum : 0 <= Qnum q) by nia.
  rewrite Z.quot_div_nonneg by lia. split.
  - apply Z.div_le_lower_bound; lia.
  - apply Z.div_lt_upper_bound; lia.
Qed.

(** A limit that converts to a finite number of at least one passes the
    validation and is replaced by the wrapped truncation. *)
Lemma finite_limit_coerced (v : value) (q : Q) :
  ToNumber StringToNumber v = Fin q -> (1 <= q)%Q ->
  invalidLimit v = false /\
  effectiveLimit v = VNumber (of_Z (wrap32 (truncate q))).
Proof.
  intros Hv Hq. unfold invalidLimit, effectiveLimit, isNaN, lt_one, isFinite,
    bitor_zero, ToInt32.
  rewrite Hv. split; [|reflexivity].
  cbn [orb]. apply negb_false_iff, Qle_bool_iff, Hq.
Qed.

(** A limit that converts to positive infinity passes the validation,
    stays as it is, and is strictly equal to no count. *)
Lemma infinite_limit_kept (v : value) :
  ToNumber StringToNumber v = PosInf ->
  invalidLimit v = false /\ effectiveLimit v = v /\
  forall k, strict_equals_int k v = false.
Proof.
  intros Hv. unfold invalidLimit, effectiveLimit, isNaN, lt_one, isFinite.
  rewrite Hv. repeat split.
  intros k. destruct v as [| | |[| | |q]| | |]; try reflexivity.
  discriminate Hv.
Qed.

Lemma selectedParser_valid (options : Options.t) :
  invalidLimit (configuredLimit options) = false ->
  selectedParser options =
    (Normal ((if negb (is_false (Options.extended options))
              then extended_queryparse
              else simple_queryparse)
               (effectiveLimit (configuredLimit options))), []).
Proof.
  intros Hv. unfold selectedParser, extendedparser, simpleparser.
  rewrite Hv.
  destruct (negb (is_false (Options.extended options))); reflexivity.
Qed.

(** Either decoder fails exactly when the counter gives up. *)
Lemma queryparse_rejects (limit : value) (body : string) :
  (completion_of (extended_queryparse limit body) = Throw tooManyParameters
   <-> parameterCount body limit = None) /\
  (completion_of (simple_queryparse limit body) = Throw tooManyParameters
   <-> parameterCount body limit = None).
Proof.
  unfold extended_queryparse, simple_queryparse.
  destruct (parameterCount body limit); cbn; split; split;
    try reflexivity; discriminate.
Qed.

Lemma queryparse_accepts (limit : value) (body : string) (n : Z) :
  parameterCount body limit = Some n ->
  (exists mapping,
     completion_of (extended_queryparse limit body) = Normal mapping) /\
  (exists mapping,
     completion_of (simple_queryparse limit body) = Normal mapping).
Proof.
  intros H. unfold extended_queryparse, simple_queryparse. rewrite H.
  split; eexists; reflexivity.
Qed.

(** X3: a [parameterLimit] of any type that converts to a finite number
    [q] with [1 <= q < 2^31] is accepted, and the decoder built from it
    rejects a body exactly when the body holds at least [trunc q]
    separators: a fraction is a ceiling rounded down, a numeric string
    the ceiling it spells. *)
Theorem finite_ceiling_threshold (options : Options.t) (q : Q) :
  ToNumber StringToNumber (configuredLimit options) = Fin q ->
  (1 <= q)%Q -> (q < inject_Z (2 ^ 31))%Q ->
  exists decode,
    selectedParser options = (Normal decode, []) /\
    1 <= truncate q < 2 ^ 31 /\
    forall body,
      (completion_of (decode body) = Throw tooManyParameters <->
       truncate q <= occurrences ampersand body) /\
      (occurrences ampersand body < truncate q ->
       exists mapping, completion_of (decode body) = Normal mapping).
Proof.
  intros Hv Hlo Hhi.
  destruct (finite_limit_coerced _ Hv Hlo) as [Hvalid Heff].
  assert (Hq : 1 <= truncate q < 2 ^ 31)
    by (apply truncate_bounds; [lia | exact Hlo | exact Hhi]).
  rewrite (selectedParser_valid options Hvalid), Heff.
  rewrite wrap32_small by lia.
  eexists. split; [reflexivity|]. split; [exact Hq|].
  intros body.
  pose proof (parameterCount_of_Z body (truncate q)) as Hcount.
  destruct (queryparse_rejects (VNumber (of_Z (truncate q))) body)
    as [Hext Hsim].
  split.
  - destruct (negb (is_false (Options.extended options)));
      [rewrite Hext | rewrite Hsim]; rewrite Hcount;
      destruct (Z.leb_spec 1 (truncate q)); try lia; cbn [andb];
      destruct (Z.leb_spec (truncate q) (occurrences ampersand body));
      split; try discriminate; try reflexivity; lia.
  - intros Hfew.
    rewrite (proj2 (Z.leb_gt (truncate q) (occurrences ampersand body)))
      in Hcount by lia.
    rewrite andb_false_r in Hcount.
    destruct (queryparse_accepts _ _ Hcount) as [He Hs].
    destruct (negb (is_false (Options.extended options))); assumption.
Qed.

(** X4: a [parameterLimit] that converts to positive infinity is
    accepted and kept as it is; the decoder built from it rejects no
    body, and hands that same value to its parser. *)
Theorem infinite_ceiling_never_rejects (options : Options.t) :
  ToNumber StringToNumber (configuredLimit options) = PosInf ->
  selectedParser options =
    (Normal ((if negb (is_false (Options.extended options))
              then extended_queryparse
              else simple_queryparse) (configuredLimit options)), []) /\
  forall body,
    parameterCount body (configuredLimit options)
      = Some (occurrences ampersand body) /\
    (exists mapping,
       completion_of (extended_queryparse (configuredLimit options) body)
         = Normal mapping) /\
    (exists mapping,
       completion_of (simple_queryparse (configuredLimit options) body)
         = Normal mapping).
Proof.
  intros Hv.
  destruct (infinite_limit_kept _ Hv) as (Hvalid & Heff & Hmiss).
  split.
  - rewrite (selectedParser_valid options Hvalid), Heff. reflexivity.
  - intros body.
    assert (Hcount : parameterCount body (configuredLimit options)
                     = Some (occurrences ampersand body)).
    { rewrite parameterCount_scan, scan_some; [reflexivity|].
      intros k _. apply Hmiss. }
    split; [exact Hcount|]. exact (queryparse_accepts _ _ Hcount).
Qed.

Lemma wrap32_range (z : Z) :
  - 2 ^ 31 <= wrap32 z < 2 ^ 31 /\ (wrap32 z - z) mod 2 ^ 32 = 0.
Proof.
  unfold wrap32.
  pose proof (Z.mod_pos_bound z (2 ^ 32) ltac:(lia)) as Hb.
  destruct (Z.ltb_spec (z mod 2 ^ 32) (2 ^ 31)); split; try lia.
  - rewrite Zminus_mod, Z.mod_mod, Z.sub_diag by lia. reflexivity.
  - replace (z mod 2 ^ 32 - 2 ^ 32 - z)
      with (z mod 2 ^ 32 - z + (-1) * 2 ^ 32) by lia.
    rewrite Z.mod_add by lia.
    rewrite Zminus_mod, Z.mod_mod, Z.sub_diag by lia. reflexivity.
Qed.

(** X5: the effective ceiling of an integer limit is a signed 32-bit
    integer congruent to it modulo [2^32]; limits that differ by a
    multiple of [2^32] give the same effective ceiling, so that
    [2^32 + 5] acts as [5]. *)
Theorem effective_ceiling_wraps (c : Z) :
  (exists z,
     effectiveLimit (VNumber (of_Z c)) = VNumber (of_Z z) /\
     - 2 ^ 31 <= z < 2 ^ 31 /\ (z - c) mod 2 ^ 32 = 0) /\
  (forall k,
     effectiveLimit (VNumber (of_Z (c + k * 2 ^ 32)))
       = effectiveLimit (VNumber (of_Z c))).
Proof.
  split.
  - exists (wrap32 c). rewrite effectiveLimit_of_Z.
    split; [reflexivity | apply wrap32_range].
  - intros k. rewrite !effectiveLimit_of_Z. unfold wrap32.
    rewrite Z.mod_add by lia. reflexivity.
Qed.

(** X6: for one and the same ceiling the two decoders reject the same
    bodies, and a decoder that rejects a body rejects every body with
    at least as many separators. *)
Theorem decoders_reject_alike (limit : value) (body body' : string) :
  (completion_of (extended_queryparse limit body) = Throw tooManyParameters
   <-> completion_of (simple_queryparse limit body) = Throw tooManyParameters)
  /\
  (occurrences ampersand body <= occurrences ampersand body' ->
   completion_of (extended_queryparse limit body) = Throw tooManyParameters ->
   completion_of (extended_queryparse limit body') = Throw tooManyParameters
   /\
   completion_of (simple_queryparse limit body') = Throw tooManyParameters).
Proof.
  destruct (queryparse_rejects limit body) as [Hext Hsim].
  destruct (queryparse_rejects limit body') as [Hext' Hsim'].
  split; [rewrite Hext, Hsim; reflexivity|].
  intros Hle Hrej. rewrite Hext', Hsim'. apply Hext in Hrej.
  rewrite parameterCount_scan in *.
  destruct (scan_cases limit body 0) as [[_ [k [Hk Hit]]] | [Hs _]];
    [|congruence].
  assert (Hnone : scan body' limit 0 = None)
    by (apply scan_none with (k := k); [lia | exact Hit]).
  split; exact Hnone.
Qed.

(** X7: whenever the extended decoder calls [qs.parse], it passes the
    body it was given and an [arrayLimit] of [max(100, number of
    separators)]; under a ceiling [c] below [2^31] that is at most
    [max(100, c - 1)]. *)
Theorem array_limit_bounded (limit : value) (body body' : string)
    (opts : qs_options) :
  In (QsParse body' opts) (trace_of (extended_queryparse limit body)) ->
  body' = body /\
  arrayLimit opts = Z.max 100 (occurrences ampersand body) /\
  (forall c, 1 <= c -> limit = VNumber (of_Z c) ->
             arrayLimit opts <= Z.max 100 (c - 1)).
Proof.
  unfold extended_queryparse.
  pose proof (counter_cases limit body) as Hcases.
  destruct (parameterCount body limit) as [n|] eqn:Hn; cbn.
  - intros [H|[H|[]]]; [discriminate H|].
    injection H as <- <-. cbn [arrayLimit].
    destruct Hcases as [[Hc _] | [Hc Hmiss]]; [discriminate Hc|].
    injection Hc as ->. split; [reflexivity|]. split; [reflexivity|].
    intros c Hc ->.
    destruct (Z.le_gt_cases c (occurrences ampersand body)) as [Hle|Hgt];
      [|lia].
    specialize (Hmiss c ltac:(lia)).
    rewrite strict_equals_int_of_Z, Z.eqb_refl in Hmiss. discriminate.
  - intros [H|[]]. discriminate H.
Qed.

End Ceilings.

(** ** Construction, step by step *)

Section Validation.

Context {ext : Externals}.

(** X8: the notice about an absent [extended] is given before anything
    is validated, hence also when construction goes on to fail, and
    [verify] is validated before [parameterLimit]: with both invalid the
    error raised is the one about [verify]. *)
Theorem construction_order (options : option Options.t) :
  trace_of (UrlencodedParser options) = notice (given options) /\
  (truthy (Options.verify (given options)) = true ->
   is_function (Options.verify (given options)) = false ->
   completion_of (UrlencodedParser options)
     = Throw (TypeError "option verify must be function")) /\
  (truthy (Options.verify (given options))
     && negb (is_function (Options.verify (given options))) = false ->
   invalidLimit (configuredLimit (given options)) = true ->
   completion_of (UrlencodedParser options)
     = Throw (TypeError "option parameterLimit must be a positive number")).
Proof.
  pose proof (UrlencodedParser_cases options) as Hc. cbv zeta in Hc.
  rewrite Hc. clear Hc. split; [|split].
  - destruct (truthy (Options.verify (given options))
              && negb (is_function (Options.verify (given options))));
      [reflexivity|].
    destruct (invalidLimit (configuredLimit (given options))); reflexivity.
  - intros Ht Hf. rewrite Ht, Hf. reflexivity.
  - intros Hv Hl. rewrite Hv, Hl. reflexivity.
Qed.

(** X9: on a middleware that was constructed, the [verify] handed to
    the reader is either the function given as the option, or [false];
    it is [false] exactly when the option was falsy. *)
Theorem verify_is_function_or_false
    (options : option Options.t) (self : instance) (t : list event) :
  UrlencodedParser options = (Normal self, t) ->
  (parsedVerify self = Options.verify (given options) /\
   is_function (parsedVerify self) = true /\
   truthy (Options.verify (given options)) = true) \/
  (parsedVerify self = VBool false /\
   truthy (Options.verify (given options)) = false).
Proof.
  pose proof (UrlencodedParser_cases options) as Hc. cbv zeta in Hc.
  rewrite Hc. clear Hc.
  destruct (truthy (Options.verify (given options))) eqn:Ht;
    destruct (is_function (Options.verify (given options))) eqn:Hf;
    cbn [andb negb]; try discriminate;
    (destruct (invalidLimit (configuredLimit (given options)));
     [discriminate|]);
    intros H; injection H as <- _; cbn [parsedVerify]; unfold JS.or;
    rewrite Ht.
  - left. repeat split. exact Hf.
  - right. split; reflexivity.
  - right. split; reflexivity.
Qed.

End Validation.

(** ** The handler's checks *)

Section Checks.

Context {ext : Externals}.

(** X10: whenever [checkParse] returns, it has returned [true] exactly
    for a request that carries no parsed body, has a body, matches the
    media type and resolves to [utf-8]; it has called [next] once if it
    returned [false] and not at all if it returned [true]. *)
Theorem checkParse_contract
    (req : Request.t) (self : instance) (charset : string)
    (b : bool) (t : list event) :
  checkParse req self charset = (Normal b, t) ->
  (b = true <->
   truthy (Request._body req) = false /\
   typeis_hasBody req = true /\
   shouldParse self req = true /\
   charset = "utf-8") /\
  next_calls t = (if b then 0 else 1)%nat.
Proof.
  rewrite checkParse_cases.
  destruct (truthy (Request._body req));
    [intros H; injection H as <- <-; split; [|reflexivity];
     split; [discriminate | intros (H & _); discriminate H]|].
  destruct (typeis_hasBody req); cbn [negb];
    [|intros H; injection H as <- <-; split; [|reflexivity];
      split; [discriminate | intros (_ & H & _); discriminate H]].
  destruct (shouldParse self req); cbn [negb];
    [|intros H; injection H as <- <-; split; [|reflexivity];
      split; [discriminate | intros (_ & _ & H & _); discriminate H]].
  destruct (String.eqb_spec charset "utf-8") as [E|E]; cbn [negb];
    intros H; injection H as <- <-; (split; [|reflexivity]).
  - split; [intros _; repeat split; exact E | reflexivity].
  - split; [discriminate | intros (_ & _ & _ & H); contradiction].
Qed.

(** X11: an eligible request is handed to the reader exactly when its
    content type cannot be parsed, or its charset parameter, lowercased,
    is [utf-8] or empty (an absent parameter counting as empty). *)
Theorem charset_acceptance (self : instance) (req : Request.t) :
  truthy (Request._body req) = false ->
  typeis_hasBody (placeholder req) = true ->
  shouldParse self (placeholder req) = true ->
  (completion_of (checkParse (placeholder req) self (resolvedCharset req))
     = Normal true
   <->
   contentType_parse req = None \/
   exists parameters,
     contentType_parse req = Some parameters /\
     (toLowerCase (string_or (lookup "charset" parameters) "") = "" \/
      toLowerCase (string_or (lookup "charset" parameters) "") = "utf-8")).
Proof.
  intros Hb Hh Hs. rewrite checkParse_cases.
  change (Request._body (placeholder req)) with (Request._body req).
  rewrite Hb, Hh, Hs. cbn [negb].
  unfold resolvedCharset, getCharset, string_or at 1.
  destruct (contentType_parse req) as [parameters|].
  - set (c := toLowerCase (string_or (lookup "charset" parameters) "")).
    destruct (String.eqb_spec c "") as [E|E].
    + cbn. split; [intros _|reflexivity].
      right. exists parameters. split; [reflexivity | left; exact E].
    + destruct (String.eqb_spec c "utf-8") as [E'|E']; cbn.
      * split; [intros _|reflexivity].
        right. exists parameters. split; [reflexivity | right; exact E'].
      * split; [discriminate|].
        intros [H|[p [Hp [H|H]]]]; [discriminate H | |];
          injection Hp as <-; contradiction.
  - cbn. split; [intros _; left|]; reflexivity.
Qed.

Lemma placeholder_idempotent (req : Request.t) :
  placeholder (placeholder req) = placeholder req.
Proof.
  unfold placeholder, Request.set_body, JS.or. cbn.
  destruct (truthy (Request.body req)) eqn:E; [rewrite E|]; reflexivity.
Qed.

(** X12: the eligibility skip is idempotent: a request that is skipped
    (it carries a parsed body, or has no body, or is of another media
    type) comes back with the placeholder in place, and handling what
    came back gives the same request and the same calls again. *)
Theorem skip_is_idempotent (self : instance) (req : Request.t) :
  truthy (Request._body req) = true \/
  typeis_hasBody (placeholder req) = false \/
  shouldParse self (placeholder req) = false ->
  exists t,
    createReader self req = (Normal (placeholder req), t) /\
    createReader self (placeholder req) = (Normal (placeholder req), t) /\
    next_calls t = 1%nat.
Proof.
  intros Hskip.
  assert (H : exists t,
             next_calls t = 1%nat /\
             forall charset,
               checkParse (placeholder req) self charset = (Normal false, t)).
  { destruct (truthy (Request._body req)) eqn:Hb.
    - eexists. split; [|intros charset; rewrite checkParse_cases;
        change (Request._body (placeholder req)) with (Request._body req);
        rewrite Hb; reflexivity]. reflexivity.
    - destruct (typeis_hasBody (placeholder req)) eqn:Hh.
      + destruct (shouldParse self (placeholder req)) eqn:Hs.
        * destruct Hskip as [H|[H|H]]; discriminate H.
        * eexists. split; [|intros charset; rewrite checkParse_cases;
            change (Request._body (placeholder req)) with (Request._body req);
            rewrite Hb, Hh, Hs; reflexivity]. reflexivity.
      + eexists. split; [|intros charset; rewrite checkParse_cases;
          change (Request._body (placeholder req)) with (Request._body req);
          rewrite Hb, Hh; reflexivity]. reflexivity. }
  destruct H as [t [Hn Hc]]. exists t. split; [|split; [|exact Hn]].
  - apply createReader_stops, Hc.
  - rewrite <- (placeholder_idempotent req) at 2.
    apply createReader_stops. rewrite placeholder_idempotent. apply Hc.
Qed.

End Checks.

(** ** From the options to the handler *)

Section Wiring.

Context {ext : Externals}.

(** X16: on a middleware that was constructed, the media type check of
    the handler is decided by the [type] option: a function is called
    on the request and [typeis] is not consulted; any other truthy
    value is handed to [typeis]; a falsy one is replaced by
    [application/x-www-form-urlencoded].  In each case the result is
    read for its truth value. *)
Theorem media_type_check
    (options : option Options.t) (self : instance) (t : list event)
    (req : Request.t) :
  UrlencodedParser options = (Normal self, t) ->
  (forall f, Options.type (given options) = VFunction f ->
     shouldParse self req = truthy (apply_predicate f req)) /\
  (truthy (Options.type (given options)) = true ->
   is_function (Options.type (given options)) = false ->
     shouldParse self req = truthy (typeis req (Options.type (given options))))
  /\
  (truthy (Options.type (given options)) = false ->
     shouldParse self req
       = truthy (typeis req (VString "application/x-www-form-urlencoded"))).
Proof.
  pose proof (UrlencodedParser_cases options) as Hc. cbv zeta in Hc.
  rewrite Hc. clear Hc.
  destruct (truthy (Options.verify (given options))
            && negb (is_function (Options.verify (given options))));
    [discriminate|].
  destruct (invalidLimit (configuredLimit (given options)));
    [discriminate|].
  intros H. injection H as <- _. cbn [shouldParse]. unfold JS.or.
  split; [|split].
  - intros f Hf. rewrite Hf. reflexivity.
  - intros Ht Hf. rewrite Ht.
    destruct (Options.type (given options)); try reflexivity.
    discriminate Hf.
  - intros Ht. rewrite Ht. reflexivity.
Qed.

(** X17: on a middleware constructed with an integer ceiling [c],
    [1 <= c < 2^31], the callback given to the reader fails, with the
    parameter overflow, exactly on the bodies that hold at least [c]
    separators; the empty body is never among them. *)
Theorem callback_threshold
    (options : option Options.t) (self : instance) (t : list event) (c : Z) :
  UrlencodedParser options = (Normal self, t) ->
  Options.parameterLimit (given options) = VNumber (of_Z c) ->
  1 <= c < 2 ^ 31 ->
  forall body,
    (completion_of (parseBody self body) = Throw tooManyParameters <->
     c <= occurrences ampersand body) /\
    (occurrences ampersand body < c ->
     exists mapping, completion_of (parseBody self body) = Normal mapping).
Proof.
  intros Hbuilt Hl Hc body.
  pose proof (UrlencodedParser_cases options) as Hcases. cbv zeta in Hcases.
  rewrite Hcases in Hbuilt. clear Hcases.
  destruct (truthy (Options.verify (given options))
            && negb (is_function (Options.verify (given options))));
    [discriminate|].
  destruct (invalidLimit (configuredLimit (given options)));
    [discriminate|].
  injection Hbuilt as <- _. unfold parseBody. cbn [queryparse].
  rewrite (effectiveLimit_configured _ Hl), wrap32_small by lia.
  destruct body as [|a body'].
  - cbn. split; [split; [discriminate | lia] | intros _; eexists; reflexivity].
  - set (body := String a body').
    change (negb (Nat.eqb (String.length body) 0)) with true. cbv iota.
    pose proof (parameterCount_of_Z body c) as Hcount.
    destruct (queryparse_rejects (VNumber (of_Z c)) body) as [Hext Hsim].
    rewrite (proj2 (Z.leb_le 1 c)) in Hcount by lia. cbn [andb] in Hcount.
    destruct (Z.leb_spec c (occurrences ampersand body)) as [Hle|Hgt].
    + split; [|lia].
      destruct (negb (is_false (Options.extended (given options))));
        [rewrite Hext | rewrite Hsim]; (split; [intros _; exact Hle|]);
        intros _; exact Hcount.
    + destruct (queryparse_accepts _ _ Hcount) as [He Hs].
      split.
      * destruct (negb (is_false (Options.extended (given options))));
          [rewrite Hext | rewrite Hsim]; rewrite Hcount;
          (split; [discriminate | lia]).
      * intros _.
        destruct (negb (is_false (Options.extended (given options))));
          assumption.
Qed.

End Wiring.

(** ** The cache of parser modules *)

Section Cache.

Import Parsers.

Lemma get_set_same (parsers : cache) (name : string)
    (stored : option module_object) :
  get (set parsers name stored) name = stored.
Proof.
  unfold get. induction parsers as [|[k v] rest IH]; cbn.
  - rewrite String.eqb_refl. reflexivity.
  - destruct (String.eqb k name) eqn:E; cbn; rewrite E;
      [reflexivity | exact IH].
Qed.

Lemma get_set_other (parsers : cache) (name other : string)
    (stored : option module_object) :
  other <> name ->
  get (set parsers name stored) other = get parsers other.
Proof.
  intros Hne. unfold get. induction parsers as [|[k v] rest IH]; cbn.
  - destruct (String.eqb_spec name other) as [E|_];
      [congruence | reflexivity].
  - destruct (String.eqb_spec k name) as [->|Hk]; cbn.
    + destruct (String.eqb_spec name other) as [E|_];
        [congruence | reflexivity].
    + destruct (String.eqb k other); [reflexivity | exact IH].
Qed.

Lemma load_cases (name : string) :
  (name = "qs" /\ load name = (Some qs, ["qs"])) \/
  (name = "querystring" /\ load name = (Some querystring, ["querystring"])) \/
  (name <> "qs" /\ name <> "querystring" /\ load name = (None, [])).
Proof.
  unfold load.
  destruct (String.eqb_spec name "qs") as [->|Hq]; [left; split; reflexivity|].
  destruct (String.eqb_spec name "querystring") as [->|Hs];
    [right; left; split; reflexivity|].
  right. right. repeat split; assumption.
Qed.

(** One call: what it returns, what it requires, what it stores. *)
Lemma parser_step (name : string) (parsers : cache) :
  consistent parsers ->
  exists c required parsers',
    parser name parsers = (c, required, parsers') /\
    consistent parsers' /\
    (forall m, named name m -> c = Normal (parse m) /\
                               get parsers' name = Some m) /\
    (load name = (None, []) ->
       (exists message, c = Throw (TypeError message)) /\ required = []) /\
    (forall other, other <> name -> get parsers' other = get parsers other) /\
    (required = [] \/ required = [name] /\ get parsers name = None).
Proof.
  intros Hcons. unfold parser.
  destruct (get parsers name) as [stored|] eqn:Hget.
  - pose proof (Hcons _ _ Hget) as Hnamed.
    eexists. eexists. eexists. split; [reflexivity|].
    split; [exact Hcons|]. split; [|split; [|split]].
    + intros m Hm. unfold named in *. split; congruence.
    + intros Hload. unfold named in Hnamed. rewrite Hload in Hnamed.
      discriminate Hnamed.
    + reflexivity.
    + left. reflexivity.
  - destruct (load_cases name) as [[-> Hl] | [[-> Hl] | (Hq & Hs & Hl)]];
      rewrite Hl; eexists; eexists; eexists; (split; [reflexivity|]).
    + split; [|split; [|split; [|split]]].
      * intros n m. destruct (String.eqb_spec n "qs") as [->|Hn].
        -- rewrite get_set_same. intros H. injection H as <-. reflexivity.
        -- rewrite get_set_other by exact Hn. apply Hcons.
      * intros m Hm. injection Hm as <-. rewrite get_set_same.
        split; reflexivity.
      * discriminate.
      * intros other Ho. apply get_set_other, Ho.
      * right. split; reflexivity.
    + split; [|split; [|split; [|split]]].
      * intros n m. destruct (String.eqb_spec n "querystring") as [->|Hn].
        -- rewrite get_set_same. intros H. injection H as <-. reflexivity.
        -- rewrite get_set_other by exact Hn. apply Hcons.
      * intros m Hm. injection Hm as <-. rewrite get_set_same.
        split; reflexivity.
      * discriminate.
      * intros other Ho. apply get_set_other, Ho.
      * right. split; reflexivity.
    + split; [|split; [|split; [|split]]].
      * intros n m. destruct (String.eqb_spec n name) as [->|Hn].
        -- rewrite get_set_same. discriminate.
        -- rewrite get_set_other by exact Hn. apply Hcons.
      * intros m Hm. unfold named in Hm. rewrite Hl in Hm. discriminate Hm.
      * intros _. split; [eexists|]; reflexivity.
      * intros other Ho. apply get_set_other, Ho.
      * left. reflexivity.
Qed.

(** A run of calls keeps the cache consistent, requires no module that
    is already stored, and requires none twice. *)
Lemma calls_invariant (names : list string) :
  forall parsers seen,
    consistent parsers ->
    (forall n, In n seen -> get parsers n <> None) ->
    NoDup seen ->
    consistent (snd (calls names parsers)) /\
    NoDup (seen ++ fst (calls names parsers)) /\
    (forall n, In n (fst (calls names parsers)) ->
               In n names /\ get (snd (calls names parsers)) n <> None) /\
    (forall n, get parsers n <> None ->
               get (snd (calls names parsers)) n = get parsers n).
Proof.
  induction names as [|name names IH]; intros parsers seen Hcons Hseen Hnd.
  - cbn. rewrite app_nil_r.
    split; [assumption|]. split; [assumption|].
    split; [intros n [] | reflexivity].
  - cbn [calls].
    destruct (parser_step name Hcons)
      as (c & required & parsers' & Hp & Hcons' & Hknown & _ & Hother & Hreq).
    rewrite Hp.
    assert (Hkeep : forall n, get parsers n <> None ->
                              get parsers' n = get parsers n).
    { intros n Hn. destruct (String.eqb_spec n name) as [->|Hne];
        [|apply Hother, Hne].
      unfold parser in Hp. destruct (get parsers name) eqn:E;
        [|contradiction].
      injection Hp as _ _ <-. exact E. }
    assert (Hseen' : forall n, In n (seen ++ required) ->
                               get parsers' n <> None).
    { intros n Hn. apply in_app_or in Hn. destruct Hn as [Hn|Hn].
      - rewrite Hkeep by (apply Hseen, Hn). apply Hseen, Hn.
      - destruct Hreq as [->|[-> Hnone]]; [destruct Hn|].
        destruct Hn as [<-|[]].
        destruct (load_cases name) as [[-> _] | [[-> _] | (_ & _ & Hl)]].
        + rewrite (proj2 (Hknown qs eq_refl)). discriminate.
        + rewrite (proj2 (Hknown querystring eq_refl)). discriminate.
        + unfold parser in Hp. rewrite Hnone, Hl in Hp.
          injection Hp as _ Hr _. discriminate Hr. }
    assert (Hnd' : NoDup (seen ++ required)).
    { destruct Hreq as [->|[-> Hnone]]; [rewrite app_nil_r; exact Hnd|].
      apply NoDup_app; [exact Hnd | repeat constructor; intros [] |].
      intros n Hn [E|[]]. subst n. exact (Hseen name Hn Hnone). }
    destruct (IH parsers' (seen ++ required)%list Hcons' Hseen' Hnd')
      as (Hc & Hn & Hin & Hstay).
    destruct (calls names parsers') as [required' parsers''].
    cbn [fst snd] in *. split; [exact Hc|].
    split; [rewrite app_assoc; exact Hn|]. split.
    + intros n Hn'. apply in_app_or in Hn'. destruct Hn' as [Hn'|Hn'].
      * assert (n = name) as ->
          by (destruct Hreq as [->|[-> _]];
              [destruct Hn' | destruct Hn' as [<-|[]]; reflexivity]).
        split; [left; reflexivity|].
        rewrite Hstay by (apply Hseen', in_or_app; right; exact Hn').
        apply Hseen', in_or_app. right. exact Hn'.
      * destruct (Hin n Hn') as [H1 H2]. split; [right; exact H1 | exact H2].
    + intros n Hn'. rewrite Hstay by (rewrite Hkeep; assumption).
      apply Hkeep, Hn'.
Qed.

Lemma consistent_empty : consistent [].
Proof. intros name m H. discriminate H. Qed.

Lemma calls_consistent (names : list string) :
  consistent (snd (calls names [])).
Proof.
  apply (calls_invariant names (parsers := []) (seen := []));
    [exact consistent_empty | intros n [] | constructor].
Qed.

(** X13: whatever calls were made before, [parser('qs')] returns the
    [parse] function of [qs] and [parser('querystring')] that of
    [querystring], and calling it again requires nothing, returns the
    same function and leaves the cache as it is. *)
Theorem parser_returns_named_module
    (names : list string) (name : string) (m : module_object) :
  named name m ->
  exists required parsers',
    parser name (snd (calls names [])) = (Normal (parse m), required, parsers')
    /\ parser name parsers' = (Normal (parse m), [], parsers').
Proof.
  intros Hm.
  destruct (parser_step name (calls_consistent names))
    as (c & required & parsers' & Hp & _ & Hknown & _).
  destruct (Hknown m Hm) as [-> Hget].
  exists required, parsers'. split; [exact Hp|].
  unfold parser. rewrite Hget. reflexivity.
Qed.

(** X14: whatever calls were made before, [parser] of any other name
    throws a [TypeError], requires nothing, and leaves every lookup in
    the cache as it was. *)
Theorem parser_unknown_name_throws (names : list string) (name : string) :
  name <> "qs" -> name <> "querystring" ->
  exists message parsers',
    parser name (snd (calls names []))
      = (Throw (TypeError message), [], parsers') /\
    forall other, get parsers' other = get (snd (calls names [])) other.
Proof.
  intros Hq Hs.
  pose proof (calls_consistent names) as Hcons.
  assert (Hload : load name = (None, [])).
  { destruct (load_cases name) as [[-> _] | [[-> _] | (_ & _ & Hl)]];
      [contradiction | contradiction | exact Hl]. }
  assert (Hget : get (snd (calls names [])) name = None).
  { destruct (get (snd (calls names [])) name) as [m|] eqn:E; [|reflexivity].
    pose proof (Hcons _ _ E) as Hn. unfold named in Hn.
    rewrite Hload in Hn. discriminate Hn. }
  unfold parser. rewrite Hget, Hload.
  eexists. eexists. split; [reflexivity|].
  intros other. destruct (String.eqb_spec other name) as [->|Hne].
  - rewrite get_set_same, Hget. reflexivity.
  - apply get_set_other, Hne.
Qed.

(** X15: over any run of calls from the empty cache no module is
    required twice, and the only names ever required are names that
    were asked for and are then in the cache. *)
Theorem modules_required_once (names : list string) :
  NoDup (fst (calls names [])) /\
  forall n, In n (fst (calls names [])) ->
            In n names /\ (n = "qs" \/ n = "querystring") /\
            get (snd (calls names [])) n <> None.
Proof.
  destruct (calls_invariant names (parsers := []) (seen := [])
              consistent_empty ltac:(intros n []) ltac:(constructor))
    as (Hcons & Hnd & Hin & _).
  split; [exact Hnd|].
  intros n Hn. destruct (Hin n Hn) as [H1 H2].
  split; [exact H1|]. split; [|exact H2].
  destruct (get (snd (calls names [])) n) as [m|] eqn:E; [|contradiction].
  pose proof (Hcons _ _ E) as Hnamed. unfold named in Hnamed.
  destruct (load_cases n) as [[-> _] | [[-> _] | (_ & _ & Hl)]];
    [left; reflexivity | right; reflexivity|].
  rewrite Hl in Hnamed. discriminate Hnamed.
Qed.

End Cache.

(** ** Further runs on concrete inputs *)

(** A ceiling of [2.5] is a ceiling of two. *)
Lemma fractional_ceiling_rounds_down :
  exists decode,
    selectedParser (Sample.options_with (VBool false) (VNumber (Fin (5 # 2))))
      = (Normal decode, []) /\
    1 <= truncate (5 # 2) < 2 ^ 31 /\
    forall body,
      (completion_of (decode body) = Throw tooManyParameters <->
       truncate (5 # 2) <= occurrences ampersand body) /\
      (occurrences ampersand body < truncate (5 # 2) ->
       exists mapping, completion_of (decode body) = Normal mapping).
Proof.
  apply (@finite_ceiling_threshold Sample.externals
           (Sample.options_with (VBool false) (VNumber (Fin (5 # 2))))
           (5 # 2)).
  - reflexivity.
  - unfold Qle. simpl. lia.
  - unfold Qlt. simpl. lia.
Defined.

(** A ceiling of [Infinity] stays [Infinity]. *)
Lemma infinity_is_no_ceiling :
  selectedParser (Sample.options_with (VBool true) (VNumber PosInf)) =
    (Normal ((if negb (is_false (VBool true))
              then extended_queryparse
              else simple_queryparse)
               (configuredLimit
                  (Sample.options_with (VBool true) (VNumber PosInf)))), [])
  /\
  forall body,
    parameterCount body
      (configuredLimit (Sample.options_with (VBool true) (VNumber PosInf)))
      = Some (occurrences ampersand body) /\
    (exists mapping,
       completion_of
         (extended_queryparse
            (configuredLimit
               (Sample.options_with (VBool true) (VNumber PosInf))) body)
       = Normal mapping) /\
    (exists mapping,
       completion_of
         (simple_queryparse
            (configuredLimit
               (Sample.options_with (VBool true) (VNumber PosInf))) body)
       = Normal mapping).
Proof.
  apply (@infinite_ceiling_never_rejects Sample.externals
           (Sample.options_with (VBool true) (VNumber PosInf))).
  reflexivity.
Defined.

(** Two separators are too many for a ceiling of two, and so are three. *)
Lemma three_separators_rejected_too :
  completion_of (extended_queryparse (VNumber (of_Z 2)) "a&b&c&d")
    = Throw tooManyParameters /\
  completion_of (simple_queryparse (VNumber (of_Z 2)) "a&b&c&d")
    = Throw tooManyParameters.
Proof.
  apply (proj2 (@decoders_reject_alike Sample.externals
                  (VNumber (of_Z 2)) "a&b&c" "a&b&c&d")).
  - discriminate.
  - reflexivity.
Defined.

(** Two fields: an [arrayLimit] of 100. *)
Lemma array_limit_of_two_fields :
  "a=1&b=2" = "a=1&b=2" /\
  arrayLimit
    {| allowPrototypes := true; arrayLimit := 100;
       depth := PosInf; qs_parameterLimit := VNumber (of_Z 1000) |}
    = Z.max 100 (occurrences ampersand "a=1&b=2") /\
  (forall c, 1 <= c -> VNumber (of_Z 1000) = VNumber (of_Z c) ->
             arrayLimit
               {| allowPrototypes := true; arrayLimit := 100;
                  depth := PosInf;
                  qs_parameterLimit := VNumber (of_Z 1000) |}
             <= Z.max 100 (c - 1)).
Proof.
  apply (@array_limit_bounded Sample.externals (VNumber (of_Z 1000))
           "a=1&b=2" "a=1&b=2").
  right. left. reflexivity.
Defined.

(** With [verify: 5] and [parameterLimit: 0] the error is about
    [verify]. *)
Lemma verify_error_comes_first :
  completion_of
    (UrlencodedParser
       (Some {| Options.limit := VUndefined;
                Options.inflate := VUndefined;
                Options.type := VUndefined;
                Options.verify := VNumber (of_Z 5);
                Options.extended := VUndefined;
                Options.parameterLimit := VNumber (of_Z 0) |}))
  = Throw (TypeError "option verify must be function").
Proof.
  apply (proj1 (proj2 (@construction_order Sample.externals _)));
    reflexivity.
Defined.

(** A [verify] that is a function reaches the reader as given. *)
Lemma verify_function_kept :
  exists self t,
    UrlencodedParser (Some (Sample.options_with_verify (VFunction "check")))
      = (Normal self, t) /\
    ((parsedVerify self = VFunction "check" /\
      is_function (parsedVerify self) = true /\
      truthy (VFunction "check") = true) \/
     (parsedVerify self = VBool false /\
      truthy (VFunction "check") = false)).
Proof.
  eexists. eexists. split; [reflexivity|].
  eapply (@verify_is_function_or_false Sample.externals
            (Some (Sample.options_with_verify (VFunction "check"))) _ _).
  reflexivity.
Defined.

(** A form declaring [UTF-8] is let through. *)
Lemma upper_case_utf8_accepted :
  exists self t,
    UrlencodedParser None = (Normal self, t) /\
    completion_of
      (checkParse
         (placeholder
            (Sample.form_request
               "application/x-www-form-urlencoded; charset=UTF-8" "a=1"))
         self
         (resolvedCharset
            (Sample.form_request
               "application/x-www-form-urlencoded; charset=UTF-8" "a=1")))
    = Normal true.
Proof.
  eexists. eexists. split; [reflexivity|].
  refine (proj2 (@charset_acceptance Sample.externals _
                   (Sample.form_request
                      "application/x-www-form-urlencoded; charset=UTF-8"
                      "a=1") _ _ _) _);
    try reflexivity.
  right. eexists. split; [reflexivity|]. right. reflexivity.
Defined.

(** A JSON request is skipped, and skipped again. *)
Lemma json_request_skipped_twice :
  exists self t0,
    UrlencodedParser None = (Normal self, t0) /\
    exists t,
      createReader self (Sample.form_request "application/json" "{}")
        = (Normal (placeholder (Sample.form_request "application/json" "{}")),
           t) /\
      createReader self
        (placeholder (Sample.form_request "application/json" "{}"))
        = (Normal (placeholder (Sample.form_request "application/json" "{}")),
           t) /\
      next_calls t = 1%nat.
Proof.
  eexists. eexists. split; [reflexivity|].
  refine (@skip_is_idempotent Sample.externals _
            (Sample.form_request "application/json" "{}") _).
  right. right. reflexivity.
Defined.

(** After [querystring] and [qs] were asked for, [qs] is served from
    the cache. *)
Lemma qs_served_from_cache :
  exists required parsers',
    Parsers.parser "qs" (snd (Parsers.calls ["querystring"; "qs"] []))
      = (Normal (Parsers.parse Parsers.qs), required, parsers') /\
    Parsers.parser "qs" parsers'
      = (Normal (Parsers.parse Parsers.qs), [], parsers').
Proof.
  apply (@parser_returns_named_module ["querystring"; "qs"] "qs" Parsers.qs).
  reflexivity.
Defined.

(** There is no parser called [json]. *)
Lemma json_parser_unknown :
  exists message parsers',
    Parsers.parser "json" (snd (Parsers.calls ["qs"] []))
      = (Throw (TypeError message), [], parsers') /\
    forall other,
      Parsers.get parsers' other
        = Parsers.get (snd (Parsers.calls ["qs"] [])) other.
Proof.
  apply (@parser_unknown_name_throws ["qs"] "json"); discriminate.
Defined.

(** Four calls, two [require]s. *)
Example four_calls_two_requires :
  Parsers.calls ["qs"; "querystring"; "qs"; "querystring"] [] =
    (["qs"; "querystring"],
     [("qs", Some Parsers.qs); ("querystring", Some Parsers.querystring)]).
Proof. reflexivity. Qed.

(** A predicate given as [type] decides alone. *)
Lemma predicate_type_decides :
  exists self t,
    UrlencodedParser
      (Some {| Options.limit := VUndefined;
               Options.inflate := VUndefined;
               Options.type := VFunction "isForm";
               Options.verify := VUndefined;
               Options.extended := VBool true;
               Options.parameterLimit := VUndefined |})
      = (Normal self, t) /\
    shouldParse self (Sample.form_request "text/plain" "a=1")
      = truthy (apply_predicate "isForm"
                  (Sample.form_request "text/plain" "a=1")).
Proof.
  eexists. eexists. split; [reflexivity|].
  refine (proj1 (@media_type_check Sample.externals
                   (Some {| Options.limit := VUndefined;
                            Options.inflate := VUndefined;
                            Options.type := VFunction "isForm";
                            Options.verify := VUndefined;
                            Options.extended := VBool true;
                            Options.parameterLimit := VUndefined |})
                   _ _ _ _) "isForm" _);
    reflexivity.
Defined.

(** With a ceiling of two the callback takes one separator and refuses
    two. *)
Lemma callback_refuses_two_separators :
  exists self t,
    UrlencodedParser
      (Some (Sample.options_with (VBool false) (VNumber (of_Z 2))))
      = (Normal self, t) /\
    forall body,
      (completion_of (parseBody self body) = Throw tooManyParameters <->
       2 <= occurrences ampersand body) /\
      (occurrences ampersand body < 2 ->
       exists mapping, completion_of (parseBody self body) = Normal mapping).
Proof.
  eexists. eexists. split; [reflexivity|].
  eapply (@callback_threshold Sample.externals
            (Some (Sample.options_with (VBool false) (VNumber (of_Z 2))))
            _ _ 2).
  - reflexivity.
  - reflexivity.
  - lia.
Defined.

(** A form in [utf-8]: [checkParse] returns [true] and has not called
    [next]. *)
Lemma utf8_form_checked :
  exists self t0,
    UrlencodedParser None = (Normal self, t0) /\
    (true = true <->
     truthy (Request._body
               (Sample.form_request "application/x-www-form-urlencoded" "a=1"))
       = false /\
     typeis_hasBody
       (Sample.form_request "application/x-www-form-urlencoded" "a=1")
       = true /\
     shouldParse self
       (Sample.form_request "application/x-www-form-urlencoded" "a=1")
       = true /\
     "utf-8" = "utf-8") /\
    next_calls
      [Debug "content-type %j" [VString "application/x-www-form-urlencoded"]]
      = 0%nat.
Proof.
  eexists. eexists. split; [reflexivity|].
  refine (@checkParse_contract Sample.externals
            (Sample.form_request "application/x-www-form-urlencoded" "a=1")
            _ "utf-8" true _ _).
  reflexivity.
Defined.
